(** * kQOAuth: the OAuth 1.0 request builder of [src/kqoauthrequest.cpp]

    A shallow embedding of [KQOAuthRequestPrivate] and [KQOAuthRequest]:
    parameter collection, the normalisation comparator, the signature base
    string, signing, validation and [initRequest].

    Qt values are modelled as follows.
    - [QString] is its sequence of UTF-16 code units.  [operator<] and
      [operator==] on [QString] compare code units numerically.
    - [QByteArray] is a [string]: one [ascii] per byte.
    - [QUrl] is a record of what the code observes of a URL.
    - [QMap] is its list of entries in ascending key order.
    The text codecs ([toUtf8], [toAscii]), the MD5 digest, the clock and
    [KQOAuthUtils::hmac_sta1] are the fields of [Platform]. *)

From Stdlib Require Import List String Ascii NArith ZArith Bool Lia.
From Stdlib Require Import Permutation Sorted DecimalString DecimalPos.
Import ListNotations.

Local Open Scope list_scope.

(** Concatenation of byte arrays, [QByteArray::operator+] and [append]. *)
Infix "+++" := String.append (right associativity, at level 60).

(** ** Qt strings *)

Definition QChar := N.
Definition QString := list QChar.
Definition QByteArray := string.

(** A C string literal converted to [QString]: one code unit per character. *)
Definition qs (s : string) : QString := map N_of_ascii (list_ascii_of_string s).

(** [QString(const QByteArray &)]: Latin-1 bytes become code units.  The
    code applies it to percent-encoded and hexadecimal text only. *)
Definition QString_fromAscii (ba : QByteArray) : QString := qs ba.

Definition QString_isEmpty (s : QString) : bool :=
  match s with [] => true | _ :: _ => false end.

(** Qt's [ucstrcmp]: the first differing code unit decides; a proper prefix
    is smaller. *)
Fixpoint ucstrcmp (a b : QString) : comparison :=
  match a, b with
  | [], [] => Eq
  | [], _ :: _ => Lt
  | _ :: _, [] => Gt
  | x :: a', y :: b' =>
      match N.compare x y with
      | Eq => ucstrcmp a' b'
      | c => c
      end
  end.

Definition QString_lt (a b : QString) : bool :=
  match ucstrcmp a b with Lt => true | _ => false end.

Definition QString_eq (a b : QString) : bool :=
  match ucstrcmp a b with Eq => true | _ => false end.

(** [QString::number] of an unsigned integer: its decimal digits. *)
Definition QString_number (n : N) : QString :=
  qs (NilEmpty.string_of_uint (N.to_uint n)).

(** ** Percent-encoding, [QUrl::toPercentEncoding] with its default
    (empty) exclude and include sets *)

Definition toHexHelper (n : N) : ascii :=
  match String.get (N.to_nat n) "0123456789ABCDEF" with
  | Some c => c
  | None => "0"%char
  end.

(** The byte test of Qt's [q_toPercentEncoding]. *)
Definition isUnreserved (c : ascii) : bool :=
  let n := N_of_ascii c in
  ((0x61 <=? n) && (n <=? 0x7A)          (* ALPHA *)
   || (0x41 <=? n) && (n <=? 0x5A)       (* ALPHA *)
   || (0x30 <=? n) && (n <=? 0x39)       (* DIGIT *)
   || (n =? 0x2D)                        (* - *)
   || (n =? 0x2E)                        (* . *)
   || (n =? 0x5F)                        (* _ *)
   || (n =? 0x7E))%N.                    (* ~ *)

Definition percentEncodeByte (c : ascii) : QByteArray :=
  let n := N_of_ascii c in
  String "%" (String (toHexHelper (N.shiftr (N.land n 0xf0) 4))
             (String (toHexHelper (N.land n 0xf)) EmptyString)).

Fixpoint q_toPercentEncoding (ba : QByteArray) : QByteArray :=
  match ba with
  | EmptyString => EmptyString
  | String c rest =>
      if isUnreserved c then String c (q_toPercentEncoding rest)
      else percentEncodeByte c +++ q_toPercentEncoding rest
  end.

(** What the specification calls the unreserved characters. *)
Definition unreservedChars : list ascii :=
  list_ascii_of_string
    "ABCDEFGHIJKLMNOPQRSTUVWXYZabcdefghijklmnopqrstuvwxyz0123456789-._~".

(** The value of an uppercase hexadecimal digit; lowercase is not one. *)
Definition upperHexValue (c : ascii) : option N :=
  let n := N_of_ascii c in
  if ((0x30 <=? n) && (n <=? 0x39))%N then Some (n - 0x30)%N
  else if ((0x41 <=? n) && (n <=? 0x46))%N then Some (n - 0x41 + 10)%N
  else None.

(** ** URLs *)

(** A [QUrl] as the code observes it: whether Qt accepts it, its text up to
    the query (scheme, authority and path), and the optional query and
    fragment. *)
Record QUrl := mkQUrl {
  url_valid : bool;
  url_hierPart : QString;
  url_query : option QString;
  url_fragment : option QString
}.

(** [QUrl()], the value of a URL member nobody has set. *)
Definition QUrl_null : QUrl := mkQUrl false [] None None.

Definition QUrl_isValid (u : QUrl) : bool := url_valid u.

Definition optEmpty (o : option QString) : bool :=
  match o with None => true | Some s => QString_isEmpty s end.

Definition QUrl_isEmpty (u : QUrl) : bool :=
  QString_isEmpty (url_hierPart u) && optEmpty (url_query u)
  && optEmpty (url_fragment u).

(** [QUrl::toString(options)]; [removeQuery] is the flag [QUrl::RemoveQuery]. *)
Definition QUrl_toString (removeQuery : bool) (u : QUrl) : QString :=
  url_hierPart u
  ++ match url_query u with
     | Some q => if removeQuery then [] else qs "?" ++ q
     | None => []
     end
  ++ match url_fragment u with
     | Some f => qs "#" ++ f
     | None => []
     end.

(** ** Sorting and maps *)

(** [qSort(begin, end, lessThan)].  Qt leaves the algorithm open; under
    [normalizedParameterSort] the result does not depend on it
    (see [qSort_unique] below), so insertion sort stands for it. *)
Fixpoint qInsert {A : Type} (lessThan : A -> A -> bool) (x : A) (l : list A)
  : list A :=
  match l with
  | [] => [x]
  | y :: l' => if lessThan y x then y :: qInsert lessThan x l' else x :: l
  end.

Definition qSort {A : Type} (lessThan : A -> A -> bool) (l : list A) : list A :=
  fold_right (qInsert lessThan) [] l.

(** [QMap<QString, QString>]: the entries, kept in ascending key order with
    one entry per key by [QMap_insert]. *)
Definition QMap := list (QString * QString).

Fixpoint QMap_insert (k v : QString) (m : QMap) : QMap :=
  match m with
  | [] => [(k, v)]
  | (k', v') :: m' =>
      if QString_lt k k' then (k, v) :: m
      else if QString_eq k k' then (k, v) :: m'
      else (k', v') :: QMap_insert k v m'
  end.

Definition QMap_keys (m : QMap) : list QString := map fst m.
Definition QMap_values (m : QMap) : list QString := map snd m.

(** A map as Qt keeps it: keys strictly ascending. *)
Definition QMap_ordered (m : QMap) : Prop :=
  StronglySorted (fun a b => QString_lt (fst a) (fst b) = true) m.

(** ** Constants of the missing headers *)

(** Modelled from the spec: [OAUTH_KEY_CALLBACK] of [kqoauthglobals.h], which
    is not among the sources; the name is the one section 4.1 gives. *)
Definition OAUTH_KEY_CALLBACK : QString := qs "oauth_callback".

(** Modelled from the spec: [OAUTH_KEY_SIGNATURE_METHOD], as in section 4.1. *)
Definition OAUTH_KEY_SIGNATURE_METHOD : QString := qs "oauth_signature_method".

(** Modelled from the spec: [OAUTH_KEY_CONSUMER_KEY], as in section 4.1. *)
Definition OAUTH_KEY_CONSUMER_KEY : QString := qs "oauth_consumer_key".

(** Modelled from the spec: [OAUTH_KEY_VERSION], as in section 4.1. *)
Definition OAUTH_KEY_VERSION : QString := qs "oauth_version".

(** Modelled from the spec: [OAUTH_KEY_TIMESTAMP], as in section 4.1. *)
Definition OAUTH_KEY_TIMESTAMP : QString := qs "oauth_timestamp".

(** Modelled from the spec: [OAUTH_KEY_NONCE], as in section 4.1. *)
Definition OAUTH_KEY_NONCE : QString := qs "oauth_nonce".

(** Modelled from the spec: [OAUTH_KEY_SIGNATURE], as in section 4.3. *)
Definition OAUTH_KEY_SIGNATURE : QString := qs "oauth_signature".

(** Modelled from the spec: [enum RequestType] of [kqoauthrequest.h], which
    is not among the sources, numbered in the order section 3 lists its
    values ([initRequest] compares against [AccessToken] as the largest).  A
    C++ caller can pass any integer, so the type is [Z]. *)
Definition RequestType := Z.

(** Modelled from the spec: first value of [enum RequestType]. *)
Definition TemporaryCredentials : RequestType := 0%Z.

(** Modelled from the spec: second value of [enum RequestType]. *)
Definition ResourceOwnerAuth : RequestType := 1%Z.

(** Modelled from the spec: third value of [enum RequestType]. *)
Definition AccessToken : RequestType := 2%Z.

(** [enum RequestHttpMethod] and [enum RequestSignatureMethod]; the last
    constructor stands for an integer outside the enumeration. *)
Inductive RequestHttpMethod := GET | POST | HttpMethodOutOfRange (n : Z).
Inductive RequestSignatureMethod :=
  PLAINTEXT | HMAC_SHA1 | RSA_SHA1 | SignatureMethodOutOfRange (n : Z).

(** ** The request object *)

(** The members of [KQOAuthRequestPrivate] that the source file uses. *)
Record KQOAuthRequestPrivate := mkPrivate {
  oauthRequestEndpoint : QUrl;
  oauthCallbackUrl : QUrl;
  oauthHttpMethod : QString;
  oauthConsumerKey : QString;
  oauthConsumerSecretKey : QString;
  oauthTokenSecret : QString;
  oauthSignatureMethod : QString;
  oauthVersion : QString;
  oauthTimestamp_ : QString;
  oauthNonce_ : QString;
  additionalParams : QMap;
  requestParameters : list (QString * QString)
}.

(** The public object: its [requestType] member and the private part that
    [d_ptr] points to ([q_ptr] points back, so the private methods read
    [requestType] from the same object). *)
Record KQOAuthRequest := mkRequest {
  requestType : RequestType;
  d_ptr : KQOAuthRequestPrivate
}.

Definition set_oauthRequestEndpoint (v : QUrl) (d : KQOAuthRequestPrivate) :=
  mkPrivate v (oauthCallbackUrl d) (oauthHttpMethod d) (oauthConsumerKey d)
    (oauthConsumerSecretKey d) (oauthTokenSecret d) (oauthSignatureMethod d)
    (oauthVersion d) (oauthTimestamp_ d) (oauthNonce_ d) (additionalParams d)
    (requestParameters d).

Definition set_oauthCallbackUrl (v : QUrl) (d : KQOAuthRequestPrivate) :=
  mkPrivate (oauthRequestEndpoint d) v (oauthHttpMethod d) (oauthConsumerKey d)
    (oauthConsumerSecretKey d) (oauthTokenSecret d) (oauthSignatureMethod d)
    (oauthVersion d) (oauthTimestamp_ d) (oauthNonce_ d) (additionalParams d)
    (requestParameters d).

Definition set_oauthHttpMethod (v : QString) (d : KQOAuthRequestPrivate) :=
  mkPrivate (oauthRequestEndpoint d) (oauthCallbackUrl d) v (oauthConsumerKey d)
    (oauthConsumerSecretKey d) (oauthTokenSecret d) (oauthSignatureMethod d)
    (oauthVersion d) (oauthTimestamp_ d) (oauthNonce_ d) (additionalParams d)
    (requestParameters d).

Definition set_oauthConsumerKey (v : QString) (d : KQOAuthRequestPrivate) :=
  mkPrivate (oauthRequestEndpoint d) (oauthCallbackUrl d) (oauthHttpMethod d) v
    (oauthConsumerSecretKey d) (oauthTokenSecret d) (oauthSignatureMethod d)
    (oauthVersion d) (oauthTimestamp_ d) (oauthNonce_ d) (additionalParams d)
    (requestParameters d).

Definition set_oauthConsumerSecretKey (v : QString) (d : KQOAuthRequestPrivate) :=
  mkPrivate (oauthRequestEndpoint d) (oauthCallbackUrl d) (oauthHttpMethod d)
    (oauthConsumerKey d) v (oauthTokenSecret d) (oauthSignatureMethod d)
    (oauthVersion d) (oauthTimestamp_ d) (oauthNonce_ d) (additionalParams d)
    (requestParameters d).

Definition set_oauthSignatureMethod (v : QString) (d : KQOAuthRequestPrivate) :=
  mkPrivate (oauthRequestEndpoint d) (oauthCallbackUrl d) (oauthHttpMethod d)
    (oauthConsumerKey d) (oauthConsumerSecretKey d) (oauthTokenSecret d) v
    (oauthVersion d) (oauthTimestamp_ d) (oauthNonce_ d) (additionalParams d)
    (requestParameters d).

Definition set_oauthVersion (v : QString) (d : KQOAuthRequestPrivate) :=
  mkPrivate (oauthRequestEndpoint d) (oauthCallbackUrl d) (oauthHttpMethod d)
    (oauthConsumerKey d) (oauthConsumerSecretKey d) (oauthTokenSecret d)
    (oauthSignatureMethod d) v (oauthTimestamp_ d) (oauthNonce_ d)
    (additionalParams d) (requestParameters d).

Definition set_oauthTimestamp_ (v : QString) (d : KQOAuthRequestPrivate) :=
  mkPrivate (oauthRequestEndpoint d) (oauthCallbackUrl d) (oauthHttpMethod d)
    (oauthConsumerKey d) (oauthConsumerSecretKey d) (oauthTokenSecret d)
    (oauthSignatureMethod d) (oauthVersion d) v (oauthNonce_ d)
    (additionalParams d) (requestParameters d).

Definition set_oauthNonce_ (v : QString) (d : KQOAuthRequestPrivate) :=
  mkPrivate (oauthRequestEndpoint d) (oauthCallbackUrl d) (oauthHttpMethod d)
    (oauthConsumerKey d) (oauthConsumerSecretKey d) (oauthTokenSecret d)
    (oauthSignatureMethod d) (oauthVersion d) (oauthTimestamp_ d) v
    (additionalParams d) (requestParameters d).

Definition set_additionalParams (v : QMap) (d : KQOAuthRequestPrivate) :=
  mkPrivate (oauthRequestEndpoint d) (oauthCallbackUrl d) (oauthHttpMethod d)
    (oauthConsumerKey d) (oauthConsumerSecretKey d) (oauthTokenSecret d)
    (oauthSignatureMethod d) (oauthVersion d) (oauthTimestamp_ d)
    (oauthNonce_ d) v (requestParameters d).

Definition set_requestParameters (v : list (QString * QString))
  (d : KQOAuthRequestPrivate) :=
  mkPrivate (oauthRequestEndpoint d) (oauthCallbackUrl d) (oauthHttpMethod d)
    (oauthConsumerKey d) (oauthConsumerSecretKey d) (oauthTokenSecret d)
    (oauthSignatureMethod d) (oauthVersion d) (oauthTimestamp_ d)
    (oauthNonce_ d) (additionalParams d) v.

(** ** Effects

    A run threads the object, the number of clock readings taken so far
    and the [qWarning] messages printed so far. *)
Record Run := mkRun {
  self : KQOAuthRequest;
  clockReads : nat;
  qWarnings : list string
}.

Definition M (A : Type) : Type := Run -> A * Run.

Definition ret {A : Type} (a : A) : M A := fun r => (a, r).

Definition bind {A B : Type} (c : M A) (k : A -> M B) : M B :=
  fun r => let (a, r') := c r in k a r'.

Notation "x <- c ;; k" := (bind c (fun x => k))
  (at level 61, c at next level, right associativity).
Notation "c ;;; k" := (bind c (fun _ => k))
  (at level 61, right associativity).

Definition get_d : M KQOAuthRequestPrivate := fun r => (d_ptr (self r), r).

Definition get_requestType : M RequestType :=
  fun r => (requestType (self r), r).

Definition modify_d (f : KQOAuthRequestPrivate -> KQOAuthRequestPrivate)
  : M unit :=
  fun r => (tt, mkRun (mkRequest (requestType (self r)) (f (d_ptr (self r))))
                      (clockReads r) (qWarnings r)).

Definition set_requestType (t : RequestType) : M unit :=
  fun r => (tt, mkRun (mkRequest t (d_ptr (self r)))
                      (clockReads r) (qWarnings r)).

Definition qWarning (msg : string) : M unit :=
  fun r => (tt, mkRun (self r) (clockReads r) (qWarnings r ++ [msg])).

(** [requestParameters.append(p)] on the member list. *)
Definition requestParameters_append (p : QString * QString) : M unit :=
  modify_d (fun d => set_requestParameters (requestParameters d ++ [p]) d).

(** The body of the [for] loop of [insertAdditionalParams], from index [i]
    for [n] more rounds.  [QList::at] is only reached inside the list, where
    it agrees with [nth]. *)
Fixpoint insertLoop (additionalKeys additionalValues : list QString)
  (i n : nat) (requestParams : list (QString * QString))
  : list (QString * QString) :=
  match n with
  | O => requestParams
  | S n' =>
      insertLoop additionalKeys additionalValues (S i) n'
        (requestParams ++ [(nth i additionalKeys [], nth i additionalValues [])])
  end.

Definition normalizedParameterSort (left right : QString * QString) : bool :=
  let keyLeft := fst left in
  let valueLeft := snd left in
  let keyRight := fst right in
  let valueRight := snd right in
  if QString_eq keyLeft keyRight then QString_lt valueLeft valueRight
  else QString_lt keyLeft keyRight.

(** What the code takes from Qt and from the rest of the library. *)
Class Platform := {
  (** [QString::toUtf8] and [QString::toAscii]; Qt leaves their result on
      ill-formed text and the 8-bit codec to the installation. *)
  toUtf8 : QString -> QByteArray;
  toAscii : QString -> QByteArray;
  (** [QCryptographicHash::hash(data, Md5).toHex()]. *)
  md5Hex : QByteArray -> QByteArray;
  (** [KQOAuthUtils::hmac_sta1(message, key)] of the missing
      [kqoauthutils.cpp]: the HMAC-SHA1 signature of the specification. *)
  hmac_sta1 : QByteArray -> QString -> QString;
  (** [QDateTime::currentDateTime().toTime_t()] at the n-th reading. *)
  clock : nat -> N
}.

Section Request.

Context {qt : Platform}.

Definition currentDateTime_toTime_t : M N :=
  fun r => (clock (clockReads r),
            mkRun (self r) (S (clockReads r)) (qWarnings r)).

Definition QUrl_toPercentEncoding (input : QString) : QByteArray :=
  q_toPercentEncoding (toUtf8 input).

Definition oauthTimestamp : M QString :=
  d <- get_d ;;
  if negb (QString_isEmpty (oauthTimestamp_ d)) then ret (oauthTimestamp_ d)
  else
    t <- currentDateTime_toTime_t ;;
    ret (QString_number t).

Definition oauthNonce : M QString :=
  d <- get_d ;;
  if negb (QString_isEmpty (oauthNonce_ d)) then ret (oauthNonce_ d)
  else
    let nonceTimestamp := oauthTimestamp_ d in
    nonceTimestamp <-
      (if QString_isEmpty nonceTimestamp then oauthTimestamp
       else ret nonceTimestamp) ;;
    ret (QString_fromAscii (md5Hex (toAscii nonceTimestamp))).

Definition insertAdditionalParams : M unit :=
  modify_d (fun d =>
    let additionalKeys := QMap_keys (additionalParams d) in
    let additionalValues := QMap_values (additionalParams d) in
    set_requestParameters
      (insertLoop additionalKeys additionalValues 0 (List.length additionalKeys)
         (requestParameters d)) d).

Definition prepareRequest : M bool :=
  t <- get_requestType ;;
  (if (t =? TemporaryCredentials)%Z then
     d <- get_d ;;
     requestParameters_append
       (OAUTH_KEY_CALLBACK,
        QString_fromAscii
          (QUrl_toPercentEncoding (QUrl_toString false (oauthCallbackUrl d)))) ;;;
     requestParameters_append
       (OAUTH_KEY_SIGNATURE_METHOD, oauthSignatureMethod d) ;;;
     requestParameters_append (OAUTH_KEY_CONSUMER_KEY, oauthConsumerKey d) ;;;
     requestParameters_append (OAUTH_KEY_VERSION, oauthVersion d) ;;;
     ts <- oauthTimestamp ;;
     requestParameters_append (OAUTH_KEY_TIMESTAMP, ts) ;;;
     nonce <- oauthNonce ;;
     requestParameters_append (OAUTH_KEY_NONCE, nonce) ;;;
     insertAdditionalParams
   else ret tt) ;;;
  ret true.

Definition encodedParamaterList (parameters : list (QString * QString))
  : QByteArray :=
  fst (fold_left
         (fun (st : QByteArray * bool) (parameter : QString * QString) =>
            let (resultList, first) := st in
            let (resultList, first) :=
              if negb first then (resultList +++ "%26", first)
              else (resultList, false) in
            (resultList +++
               (QUrl_toPercentEncoding (fst parameter)
                +++ "%3D"
                +++ QUrl_toPercentEncoding (snd parameter)),
             first))
         parameters (EmptyString, true)).

Definition requestBaseString : M QByteArray :=
  prepareRequest ;;;
  d <- get_d ;;
  let baseString := EmptyString in
  let baseString := baseString +++ (toUtf8 (oauthHttpMethod d) +++ "&") in
  let baseString :=
    baseString +++
      (QUrl_toPercentEncoding (QUrl_toString true (oauthRequestEndpoint d))
       +++ "&") in
  t <- get_requestType ;;
  (if (t =? TemporaryCredentials)%Z then
     modify_d (fun d =>
       set_requestParameters
         (qSort normalizedParameterSort (requestParameters d)) d)
   else ret tt) ;;;
  d <- get_d ;;
  ret (baseString +++ encodedParamaterList (requestParameters d)).

Definition oauthSignature : M QString :=
  baseString <- requestBaseString ;;
  d <- get_d ;;
  ret (hmac_sta1 baseString
         (oauthConsumerSecretKey d ++ qs "&" ++ oauthTokenSecret d)).

Definition signRequest : M unit :=
  signature <- oauthSignature ;;
  requestParameters_append (OAUTH_KEY_SIGNATURE, signature).

Definition validateRequest (q : KQOAuthRequest) : bool :=
  let d := d_ptr q in
  if (requestType q =? TemporaryCredentials)%Z then
    if QUrl_isEmpty (oauthRequestEndpoint d)
       || QUrl_isEmpty (oauthCallbackUrl d)
       || QString_isEmpty (oauthConsumerKey d)
       || QString_isEmpty (oauthNonce_ d)
       || QString_isEmpty (oauthSignatureMethod d)
       || QString_isEmpty (oauthTimestamp_ d)
       || QString_isEmpty (oauthVersion d)
    then false
    else true
  else if (requestType q =? ResourceOwnerAuth)%Z then false
  else if (requestType q =? AccessToken)%Z then false
  else false.

(** *** Public methods *)

Definition initRequest (rtype : RequestType) (requestEndpoint : QUrl)
  : M unit :=
  if negb (QUrl_isValid requestEndpoint) then
    qWarning "Endpoint URL is not valid. Ignoring. This request might not work."
  else
    (if ((rtype <? 0) || (rtype >=? AccessToken))%Z then
       qWarning "Invalid request type. Ignoring. This request might not work."
     else ret tt) ;;;
    set_requestType rtype ;;;
    modify_d (set_oauthRequestEndpoint requestEndpoint) ;;;
    ts <- oauthTimestamp ;;
    modify_d (set_oauthTimestamp_ ts) ;;;
    nonce <- oauthNonce ;;
    modify_d (set_oauthNonce_ nonce).

Definition setConsumerKey (consumerKey : QString) : M unit :=
  modify_d (set_oauthConsumerKey consumerKey).

Definition setConsumerSecretKey (consumerSecretKey : QString) : M unit :=
  modify_d (set_oauthConsumerSecretKey consumerSecretKey).

Definition setCallbackUrl (callbackUrl : QUrl) : M unit :=
  modify_d (set_oauthCallbackUrl callbackUrl).

Definition setSignatureMethod (requestMethod : RequestSignatureMethod)
  : M unit :=
  requestMethodString <-
    match requestMethod with
    | PLAINTEXT => ret (qs "PLAINTEXT")
    | HMAC_SHA1 => ret (qs "HMAC_SHA1")
    | RSA_SHA1 => ret (qs "RSA_SHA1")
    | SignatureMethodOutOfRange _ =>
        qWarning "Invalid signature method set." ;;; ret []
    end ;;
  modify_d (set_oauthSignatureMethod requestMethodString).

(** [case POST] has no [break]: it runs into [default] and warns too. *)
Definition setHttpMethod (httpMethod : RequestHttpMethod) : M unit :=
  requestHttpMethodString <-
    match httpMethod with
    | GET => ret (qs "GET")
    | POST => qWarning "Invalid HTTP method set." ;;; ret (qs "POST")
    | HttpMethodOutOfRange _ => qWarning "Invalid HTTP method set." ;;; ret []
    end ;;
  modify_d (set_oauthHttpMethod requestHttpMethodString).

Definition setAdditionalParameters (params : QMap) : M unit :=
  modify_d (set_additionalParams params).

Definition KQOAuthRequest_requestParameters : M (list QByteArray) :=
  q <- (fun r => (self r, r)) ;;
  (if validateRequest q then
     qWarning "Request is not valid! I will still sign it, but it will probably not work."
   else ret tt) ;;;
  signRequest ;;;
  d <- get_d ;;
  ret (map (fun requestParam =>
              let param := fst requestParam in
              let value := snd requestParam in
              toUtf8 (param ++ qs "=" ++ value))
           (requestParameters d)).

(** The constructor; [indeterminate] is the value the uninitialised
    member [requestType] happens to hold. *)
Definition KQOAuthRequest_new (indeterminate : RequestType) : Run :=
  let d := mkPrivate QUrl_null QUrl_null [] [] [] [] [] [] [] [] [] [] in
  let r := mkRun (mkRequest indeterminate d) 0 [] in
  snd ((setSignatureMethod HMAC_SHA1 ;;;
        setHttpMethod POST ;;;
        modify_d (set_oauthVersion (qs "1.0"))) r).

(** *** Values used to state the results *)

(** What [oauthTimestamp] and [oauthNonce] return when the clock has been
    read [k] times, and how many readings they take. *)
Definition timestampValue (d : KQOAuthRequestPrivate) (k : nat) : QString :=
  if QString_isEmpty (oauthTimestamp_ d) then QString_number (clock k)
  else oauthTimestamp_ d.

Definition timestampReads (d : KQOAuthRequestPrivate) : nat :=
  if QString_isEmpty (oauthTimestamp_ d) then 1 else 0.

Definition nonceValue (d : KQOAuthRequestPrivate) (k : nat) : QString :=
  if QString_isEmpty (oauthNonce_ d)
  then QString_fromAscii (md5Hex (toAscii (timestampValue d k)))
  else oauthNonce_ d.

Definition nonceReads (d : KQOAuthRequestPrivate) : nat :=
  if QString_isEmpty (oauthNonce_ d) then timestampReads d else 0.

(** The pairs one [TemporaryCredentials] round of [prepareRequest] appends
    when the clock has been read [k] times. *)
Definition preparedParameters (d : KQOAuthRequestPrivate) (k : nat)
  : list (QString * QString) :=
  [ (OAUTH_KEY_CALLBACK,
     QString_fromAscii
       (QUrl_toPercentEncoding (QUrl_toString false (oauthCallbackUrl d))));
    (OAUTH_KEY_SIGNATURE_METHOD, oauthSignatureMethod d);
    (OAUTH_KEY_CONSUMER_KEY, oauthConsumerKey d);
    (OAUTH_KEY_VERSION, oauthVersion d);
    (OAUTH_KEY_TIMESTAMP, timestampValue d k);
    (OAUTH_KEY_NONCE, nonceValue d (timestampReads d + k)) ]
  ++ additionalParams d.

(** One finalized parameter, [key=value] as bytes. *)
Definition keyValueBytes (requestParam : QString * QString) : QByteArray :=
  toUtf8 (fst requestParam ++ qs "=" ++ snd requestParam).

(** The key handed to [hmac_sta1]. *)
Definition signingKey (d : KQOAuthRequestPrivate) : QString :=
  oauthConsumerSecretKey d ++ qs "&" ++ oauthTokenSecret d.

End Request.

(** ** Auxiliary definitions for the statements *)

(** The same run with another parameter list, clock position and log. *)
Definition withParameters (l : list (QString * QString)) (k : nat) (r : Run)
  : Run :=
  mkRun (mkRequest (requestType (self r))
                   (set_requestParameters l (d_ptr (self r))))
        k (qWarnings r).

Definition params (r : Run) : list (QString * QString) :=
  requestParameters (d_ptr (self r)).

Definition QString_eq_dec : forall a b : QString, {a = b} + {a <> b} :=
  list_eq_dec N.eq_dec.

(** How often a key occurs in a parameter list. *)
Definition keyCount (k : QString) (l : list (QString * QString)) : nat :=
  count_occ QString_eq_dec (map fst l) k.

Definition protocolKeys : list QString :=
  [ OAUTH_KEY_CALLBACK; OAUTH_KEY_SIGNATURE_METHOD; OAUTH_KEY_CONSUMER_KEY;
    OAUTH_KEY_VERSION; OAUTH_KEY_TIMESTAMP; OAUTH_KEY_NONCE ].

Definition isUpperLetter (u : QChar) : bool := ((0x41 <=? u) && (u <=? 0x5A))%N.

(** The order the comparator induces: [a] may stand before [b]. *)
Definition notAfter {A : Type} (lessThan : A -> A -> bool) (a b : A) : Prop :=
  lessThan b a = false.

(** The map a caller builds by inserting [entries], last one first. *)
Definition QMap_fromList (entries : list (QString * QString)) : QMap :=
  fold_right (fun e m => QMap_insert (fst e) (snd e) m) [] entries.

(** The parameter list the base string of a run is computed from, and the
    number of clock readings taken once it has been computed. *)
Definition signedParameters {qt : Platform} (r : Run)
  : list (QString * QString) :=
  if (requestType (self r) =? TemporaryCredentials)%Z then
    qSort normalizedParameterSort
      (params r ++ preparedParameters (d_ptr (self r)) (clockReads r))
  else params r.

Definition readsAfter {qt : Platform} (r : Run) : nat :=
  if (requestType (self r) =? TemporaryCredentials)%Z then
    nonceReads (d_ptr (self r))
    + (timestampReads (d_ptr (self r)) + clockReads r)
  else clockReads r.

(** The first line of the base string: method and endpoint. *)
Definition baseStringHead {qt : Platform} (d : KQOAuthRequestPrivate)
  : QByteArray :=
  toUtf8 (oauthHttpMethod d) +++ "&"
  +++ QUrl_toPercentEncoding (QUrl_toString true (oauthRequestEndpoint d))
  +++ "&".

(** The base string of a run and the signature computed from it. *)
Definition baseStringOf {qt : Platform} (r : Run) : QByteArray :=
  baseStringHead (d_ptr (self r)) +++ encodedParamaterList (signedParameters r).

Definition signatureOf {qt : Platform} (r : Run) : QString :=
  hmac_sta1 (baseStringOf r) (signingKey (d_ptr (self r))).

(** A URL without its query component. *)
Definition withoutQuery (u : QUrl) : QUrl :=
  mkQUrl (url_valid u) (url_hierPart u) None (url_fragment u).

(** The object after the four assignments that close [initRequest]. *)
Definition initialised {qt : Platform} (rtype : RequestType)
  (requestEndpoint : QUrl) (r : Run) : KQOAuthRequest :=
  let d := set_oauthRequestEndpoint requestEndpoint (d_ptr (self r)) in
  let ts := timestampValue d (clockReads r) in
  let d := set_oauthTimestamp_ ts d in
  let nonce := nonceValue d (timestampReads (d_ptr (self r)) + clockReads r) in
  mkRequest rtype (set_oauthNonce_ nonce d).

(** ** Concrete codecs and requests, to run the model *)

Definition utf8Tail (u : N) (shift : N) : ascii :=
  ascii_of_N (N.lor 0x80 (N.land (N.shiftr u shift) 0x3f)).

(** UTF-8 of one code point. *)
Definition utf8CodePoint (u : N) : QByteArray :=
  if (u <? 0x80)%N then String (ascii_of_N u) EmptyString
  else if (u <? 0x800)%N then
    String (ascii_of_N (N.lor 0xc0 (N.shiftr u 6)))
      (String (utf8Tail u 0) EmptyString)
  else if (u <? 0x10000)%N then
    String (ascii_of_N (N.lor 0xe0 (N.shiftr u 12)))
      (String (utf8Tail u 6) (String (utf8Tail u 0) EmptyString))
  else
    String (ascii_of_N (N.lor 0xf0 (N.shiftr u 18)))
      (String (utf8Tail u 12)
         (String (utf8Tail u 6) (String (utf8Tail u 0) EmptyString))).

Definition isHighSurrogate (u : N) : bool := ((0xd800 <=? u) && (u <? 0xdc00))%N.
Definition isLowSurrogate (u : N) : bool := ((0xdc00 <=? u) && (u <? 0xe000))%N.

(** A UTF-8 codec for [toUtf8]: surrogate pairs are joined, a lone
    surrogate becomes a question mark. *)
Fixpoint utf8 (s : QString) : QByteArray :=
  match s with
  | [] => EmptyString
  | u :: rest =>
      if isHighSurrogate u then
        match rest with
        | low :: rest' =>
            if isLowSurrogate low then
              utf8CodePoint ((u - 0xd800) * 0x400 + (low - 0xdc00) + 0x10000)%N
              +++ utf8 rest'
            else String "?" (utf8 rest)
        | [] => String "?" EmptyString
        end
      else if isLowSurrogate u then String "?" (utf8 rest)
      else utf8CodePoint u +++ utf8 rest
  end.

(** A Latin-1 codec for [toAscii]. *)
Definition latin1 (s : QString) : QByteArray :=
  string_of_list_ascii
    (map (fun u => if (u <? 0x100)%N then ascii_of_N u else "?"%char) s).

(** Digests written out as text, so that a run shows what was hashed. *)
Definition md5Shown (data : QByteArray) : QByteArray := "md5(" +++ data +++ ")".

Definition hmacShown (message : QByteArray) (key : QString) : QString :=
  qs "hmac(" ++ key ++ qs "," ++ qs message ++ qs ")".

Definition fixedClock (n : nat) : N := (1300000000 + N.of_nat n)%N.

Definition examplePlatform : Platform :=
  {| toUtf8 := utf8; toAscii := latin1; md5Hex := md5Shown;
     hmac_sta1 := hmacShown; clock := fixedClock |}.

Definition url (hier : string) : QUrl := mkQUrl true (qs hier) None None.

(** The request of section 8 of the specification: POST, endpoint
    [https://example.com/request_token], callback [https://example.com/cb],
    consumer key [ck], secret [cs], timestamp 1300000000, nonce [abc123]. *)
Definition exampleRequest (additional : QMap) : Run :=
  let r := KQOAuthRequest_new TemporaryCredentials in
  let d := d_ptr (self r) in
  let d := set_oauthRequestEndpoint (url "https://example.com/request_token") d in
  let d := set_oauthCallbackUrl (url "https://example.com/cb") d in
  let d := set_oauthConsumerKey (qs "ck") d in
  let d := set_oauthConsumerSecretKey (qs "cs") d in
  let d := set_oauthTimestamp_ (qs "1300000000") d in
  let d := set_oauthNonce_ (qs "abc123") d in
  let d := set_additionalParams additional d in
  mkRun (mkRequest TemporaryCredentials d) 0 [].

(** ** Calls in sequence *)

(** The configuring calls of the public interface, [initRequest] apart. *)
Inductive SetterCall :=
| CallSetConsumerKey (consumerKey : QString)
| CallSetConsumerSecretKey (consumerSecretKey : QString)
| CallSetCallbackUrl (callbackUrl : QUrl)
| CallSetSignatureMethod (requestMethod : RequestSignatureMethod)
| CallSetHttpMethod (httpMethod : RequestHttpMethod)
| CallSetAdditionalParameters (additional : QMap).

Definition runSetter (c : SetterCall) : M unit :=
  match c with
  | CallSetConsumerKey consumerKey => setConsumerKey consumerKey
  | CallSetConsumerSecretKey consumerSecretKey =>
      setConsumerSecretKey consumerSecretKey
  | CallSetCallbackUrl callbackUrl => setCallbackUrl callbackUrl
  | CallSetSignatureMethod requestMethod => setSignatureMethod requestMethod
  | CallSetHttpMethod httpMethod => setHttpMethod httpMethod
  | CallSetAdditionalParameters additional =>
      setAdditionalParameters additional
  end.

Fixpoint runSetters (calls : list SetterCall) : M unit :=
  match calls with
  | [] => ret tt
  | c :: calls' => runSetter c ;;; runSetters calls'
  end.

(** The run after [n] calls of [requestParameters()] in a row. *)
Fixpoint callTimes {qt : Platform} (n : nat) (r : Run) : Run :=
  match n with
  | O => r
  | S n' => callTimes n' (snd (KQOAuthRequest_requestParameters r))
  end.

(** The usual way to set up a request for temporary credentials. *)
Definition setUpTemporaryCredentials {qt : Platform}
  (requestEndpoint callbackUrl : QUrl) (consumerKey : QString) : M unit :=
  initRequest TemporaryCredentials requestEndpoint ;;;
  setConsumerKey consumerKey ;;;
  setCallbackUrl callbackUrl.

(** ** Bytes of a byte array *)

Fixpoint countByte (c : ascii) (s : QByteArray) : nat :=
  match s with
  | EmptyString => 0
  | String x rest =>
      (if Ascii.eqb x c then 1 else 0) + countByte c rest
  end.

Fixpoint allBytes (p : ascii -> bool) (s : QByteArray) : bool :=
  match s with
  | EmptyString => true
  | String x rest => p x && allBytes p rest
  end.

(** The bytes percent-encoding can produce: the unreserved characters, which
    include the hexadecimal digits, and the percent sign. *)
Definition encodedByte (c : ascii) : bool :=
  isUnreserved c || Ascii.eqb c "%".

(** The same URL with another query component. *)
Definition withQuery (q : option QString) (u : QUrl) : QUrl :=
  mkQUrl (url_valid u) (url_hierPart u) q (url_fragment u).

(** The run in which the endpoint member holds [u]. *)
Definition withEndpoint (u : QUrl) (r : Run) : Run :=
  mkRun (mkRequest (requestType (self r))
                   (set_oauthRequestEndpoint u (d_ptr (self r))))
        (clockReads r) (qWarnings r).

(** * Properties *)

(** ** Byte arrays *)

Lemma append_assoc (a b c : string) : (a +++ b) +++ c = a +++ (b +++ c).
Proof. induction a as [|x a IH]; simpl; [reflexivity | now rewrite IH]. Qed.

Lemma append_empty_r (a : string) : a +++ EmptyString = a.
Proof. induction a as [|x a IH]; simpl; [reflexivity | now rewrite IH]. Qed.

(** ** The order on [QString] *)

Lemma ucstrcmp_refl (a : QString) : ucstrcmp a a = Eq.
Proof.
  induction a as [|x a IH]; simpl; [reflexivity|].
  now rewrite N.compare_refl.
Qed.

Lemma ucstrcmp_eq (a : QString) : forall b, ucstrcmp a b = Eq -> a = b.
Proof.
  induction a as [|x a IH]; intros [|y b]; simpl; try discriminate; auto.
  destruct (N.compare x y) eqn:E; try discriminate.
  intros H. apply N.compare_eq in E. subst y. f_equal. now apply IH.
Qed.

Lemma ucstrcmp_antisym (a : QString) :
  forall b, ucstrcmp b a = CompOpp (ucstrcmp a b).
Proof.
  induction a as [|x a IH]; intros [|y b]; simpl; try reflexivity.
  rewrite (N.compare_antisym x y).
  destruct (N.compare x y); simpl; auto.
Qed.

Lemma ucstrcmp_trans (a : QString) :
  forall b c, ucstrcmp a b = Lt -> ucstrcmp b c = Lt -> ucstrcmp a c = Lt.
Proof.
  induction a as [|x a IH]; intros [|y b] [|z c]; simpl; try discriminate; auto.
  destruct (N.compare x y) eqn:Exy; try discriminate;
    destruct (N.compare y z) eqn:Eyz; try discriminate; intros H1 H2.
  - apply N.compare_eq in Exy, Eyz. subst. rewrite N.compare_refl. eauto.
  - apply N.compare_eq in Exy. subst. now rewrite Eyz.
  - apply N.compare_eq in Eyz. subst. now rewrite Exy.
  - assert (E : (x ?= z)%N = Lt)
      by (apply N.compare_lt_iff; apply N.compare_lt_iff in Exy, Eyz;
          eapply N.lt_trans; eassumption).
    now rewrite E.
Qed.

Lemma QString_eq_true (a b : QString) : QString_eq a b = true <-> a = b.
Proof.
  unfold QString_eq. split.
  - destruct (ucstrcmp a b) eqn:E; try discriminate. intros _.
    now apply ucstrcmp_eq.
  - intros ->. now rewrite ucstrcmp_refl.
Qed.

Lemma QString_eq_false (a b : QString) : QString_eq a b = false <-> a <> b.
Proof.
  rewrite <- QString_eq_true. destruct (QString_eq a b); split; congruence.
Qed.

Lemma QString_lt_irrefl (a : QString) : QString_lt a a = false.
Proof. unfold QString_lt. now rewrite ucstrcmp_refl. Qed.

Lemma QString_lt_trans (a b c : QString) :
  QString_lt a b = true -> QString_lt b c = true -> QString_lt a c = true.
Proof.
  unfold QString_lt.
  destruct (ucstrcmp a b) eqn:E1; try discriminate.
  destruct (ucstrcmp b c) eqn:E2; try discriminate.
  now rewrite (ucstrcmp_trans a b c E1 E2).
Qed.

Lemma QString_lt_total (a b : QString) :
  QString_lt a b = true \/ a = b \/ QString_lt b a = true.
Proof.
  unfold QString_lt. rewrite (ucstrcmp_antisym a b).
  destruct (ucstrcmp a b) eqn:E; simpl; auto.
  right. left. now apply ucstrcmp_eq.
Qed.

(** ** The comparator *)

Lemma normalizedParameterSort_irrefl (a : QString * QString) :
  normalizedParameterSort a a = false.
Proof.
  unfold normalizedParameterSort; simpl.
  destruct (QString_eq (fst a) (fst a)); apply QString_lt_irrefl.
Qed.

Lemma normalizedParameterSort_trans (a b c : QString * QString) :
  normalizedParameterSort a b = true -> normalizedParameterSort b c = true ->
  normalizedParameterSort a c = true.
Proof.
  destruct a as [ka va], b as [kb vb], c as [kc vc].
  unfold normalizedParameterSort; simpl.
  destruct (QString_eq ka kb) eqn:Eab; destruct (QString_eq kb kc) eqn:Ebc.
  - apply QString_eq_true in Eab, Ebc. subst.
    rewrite (proj2 (QString_eq_true kc kc) eq_refl). apply QString_lt_trans.
  - apply QString_eq_true in Eab. subst. rewrite Ebc. auto.
  - apply QString_eq_true in Ebc. subst. rewrite Eab. auto.
  - intros H1 H2. pose proof (QString_lt_trans _ _ _ H1 H2) as H.
    destruct (QString_eq ka kc) eqn:Eac; [|exact H].
    apply QString_eq_true in Eac. subst.
    now rewrite QString_lt_irrefl in H.
Qed.

Lemma normalizedParameterSort_total (a b : QString * QString) :
  normalizedParameterSort a b = true \/ a = b
  \/ normalizedParameterSort b a = true.
Proof.
  destruct a as [ka va], b as [kb vb].
  unfold normalizedParameterSort; simpl.
  destruct (QString_eq ka kb) eqn:E.
  - apply QString_eq_true in E. subst.
    rewrite (proj2 (QString_eq_true kb kb) eq_refl).
    destruct (QString_lt_total va vb) as [H|[H|H]]; auto.
    subst; auto.
  - assert (E' : QString_eq kb ka = false)
      by (apply QString_eq_false; apply QString_eq_false in E; congruence).
    rewrite E'. apply QString_eq_false in E.
    destruct (QString_lt_total ka kb) as [H|[H|H]]; auto.
Qed.

(** ** Sorting under a strict total order *)

Section Sorting.

Context {A : Type} (lessThan : A -> A -> bool).
Hypothesis irrefl : forall a, lessThan a a = false.
Hypothesis trans :
  forall a b c, lessThan a b = true -> lessThan b c = true ->
                lessThan a c = true.
Hypothesis total :
  forall a b, lessThan a b = true \/ a = b \/ lessThan b a = true.

Lemma notAfter_trans (a b c : A) : notAfter lessThan a b -> notAfter lessThan b c -> notAfter lessThan a c.
Proof.
  unfold notAfter. intros Hab Hbc.
  destruct (lessThan c a) eqn:Hca; [|reflexivity].
  destruct (total a b) as [H|[H|H]]; try congruence.
  pose proof (trans _ _ _ Hca H). congruence.
Qed.

Lemma notAfter_antisym (a b : A) : notAfter lessThan a b -> notAfter lessThan b a -> a = b.
Proof.
  unfold notAfter. intros Hab Hba.
  destruct (total a b) as [H|[H|H]]; congruence.
Qed.

Lemma qInsert_perm (x : A) (l : list A) :
  Permutation (qInsert lessThan x l) (x :: l).
Proof.
  induction l as [|y l IH]; simpl; [reflexivity|].
  destruct (lessThan y x); [|reflexivity].
  rewrite IH. apply perm_swap.
Qed.

Lemma qSort_perm (l : list A) : Permutation (qSort lessThan l) l.
Proof.
  induction l as [|x l IH]; simpl; [constructor|].
  rewrite qInsert_perm. now constructor.
Qed.

Lemma qInsert_sorted (x : A) (l : list A) :
  StronglySorted (notAfter lessThan) l -> StronglySorted (notAfter lessThan) (qInsert lessThan x l).
Proof.
  induction 1 as [|y l Hs IH Hy]; simpl.
  - repeat constructor.
  - destruct (lessThan y x) eqn:E.
    + constructor; [exact IH|].
      apply (Permutation_Forall (Permutation_sym (qInsert_perm x l))).
      constructor; [|exact Hy].
      unfold notAfter. destruct (lessThan x y) eqn:E'; [|reflexivity].
      pose proof (trans _ _ _ E E'). rewrite irrefl in *. discriminate.
    + constructor; [now constructor|].
      constructor; [exact E|].
      eapply Forall_impl; [|exact Hy].
      intros z Hz. eapply notAfter_trans; [exact E|exact Hz].
Qed.

Lemma qSort_sorted (l : list A) : StronglySorted (notAfter lessThan) (qSort lessThan l).
Proof.
  induction l as [|x l IH]; simpl; [constructor|].
  now apply qInsert_sorted.
Qed.

Lemma qInsert_least (x : A) (l : list A) :
  Forall (notAfter lessThan x) l -> qInsert lessThan x l = x :: l.
Proof.
  destruct 1 as [|y l Hy _]; simpl; [reflexivity|].
  unfold notAfter in Hy. now rewrite Hy.
Qed.

Lemma qSort_of_sorted (l : list A) :
  StronglySorted (notAfter lessThan) l -> qSort lessThan l = l.
Proof.
  induction 1 as [|x l Hs IH Hx]; simpl; [reflexivity|].
  rewrite IH. now apply qInsert_least.
Qed.

Lemma qSort_idempotent (l : list A) :
  qSort lessThan (qSort lessThan l) = qSort lessThan l.
Proof. apply qSort_of_sorted, qSort_sorted. Qed.

Lemma sorted_perm_eq (l1 : list A) :
  forall l2, StronglySorted (notAfter lessThan) l1 -> StronglySorted (notAfter lessThan) l2 ->
             Permutation l1 l2 -> l1 = l2.
Proof.
  induction l1 as [|a l1 IH]; intros l2 H1 H2 HP.
  - now apply Permutation_nil in HP.
  - destruct l2 as [|b l2].
    + apply Permutation_sym, Permutation_nil in HP. discriminate.
    + inversion H1 as [|? ? Hs1 Ha]; inversion H2 as [|? ? Hs2 Hb]; subst.
      assert (a = b).
      { assert (Ia : In a (b :: l2))
          by (eapply Permutation_in; [exact HP | now left]).
        assert (Ib : In b (a :: l1))
          by (eapply Permutation_in;
              [apply Permutation_sym; exact HP | now left]).
        destruct Ia as [->|Ia]; [reflexivity|].
        destruct Ib as [->|Ib]; [reflexivity|].
        rewrite Forall_forall in Ha, Hb.
        apply notAfter_antisym; auto. }
      subst b. f_equal. apply IH; auto.
      eapply Permutation_cons_inv; exact HP.
Qed.

(** Whatever algorithm [qSort] runs, an ordered rearrangement of the list
    is the one computed here. *)
Lemma qSort_unique (l l' : list A) :
  Permutation l l' -> StronglySorted (notAfter lessThan) l' -> l' = qSort lessThan l.
Proof.
  intros HP Hs. apply sorted_perm_eq; auto using qSort_sorted.
  rewrite qSort_perm. now apply Permutation_sym.
Qed.

End Sorting.

(** ** Lexicographic order, spelled out *)

(** [a] is lexicographically before [b]: after a common prefix either [a]
    ends and [b] goes on, or [a] has the smaller code unit. *)
Inductive lexBefore : QString -> QString -> Prop :=
| lexBefore_prefix (p : QString) (y : QChar) (t : QString) :
    lexBefore p (p ++ y :: t)
| lexBefore_unit (p : QString) (x y : QChar) (s t : QString) :
    (x < y)%N -> lexBefore (p ++ x :: s) (p ++ y :: t).

Lemma lexBefore_cons (x : QChar) (a b : QString) :
  lexBefore a b -> lexBefore (x :: a) (x :: b).
Proof.
  destruct 1 as [p y t|p u v s t H].
  - apply (lexBefore_prefix (x :: p)).
  - apply (lexBefore_unit (x :: p)); exact H.
Qed.

Lemma lexBefore_nil_r (a : QString) : ~ lexBefore a [].
Proof.
  intros H. remember [] as b eqn:Eb in H.
  destruct H as [p y t|p u v s t H]; destruct p; discriminate.
Qed.

Lemma lexBefore_inv (x y : QChar) (a b : QString) :
  lexBefore (x :: a) (y :: b) -> (x < y)%N \/ (x = y /\ lexBefore a b).
Proof.
  intros H. remember (x :: a) as a' eqn:Ea. remember (y :: b) as b' eqn:Eb.
  destruct H as [p z t|p u v s t H].
  - subst p. simpl in Eb. injection Eb as Hy Hb. subst y b.
    right. split; [reflexivity | apply lexBefore_prefix].
  - destruct p as [|z p]; simpl in *.
    + injection Ea as Hx _. injection Eb as Hy _. subst x y. now left.
    + injection Ea as Hx Ha. injection Eb as Hy Hb. subst x y a b.
      right. split; [reflexivity | now apply lexBefore_unit].
Qed.

Lemma QString_lt_lexBefore (a : QString) :
  forall b, QString_lt a b = true <-> lexBefore a b.
Proof.
  unfold QString_lt.
  induction a as [|x a IH]; intros [|y b]; simpl.
  - split; [discriminate|]. intros H. now apply lexBefore_nil_r in H.
  - split; [|reflexivity]. intros _. apply (lexBefore_prefix [] y b).
  - split; [discriminate|]. intros H. now apply lexBefore_nil_r in H.
  - destruct (N.compare x y) eqn:E.
    + apply N.compare_eq in E. subst y. rewrite IH. split.
      * apply lexBefore_cons.
      * intros H. apply lexBefore_inv in H. destruct H as [H|[_ H]].
        -- exfalso. revert H. apply N.lt_irrefl.
        -- exact H.
    + split; [|reflexivity]. intros _.
      apply (lexBefore_unit [] x y a b). now apply N.compare_lt_iff.
    + split; [discriminate|]. intros H. exfalso.
      apply N.compare_gt_iff in E.
      apply lexBefore_inv in H. destruct H as [H|[H _]].
      * apply (N.lt_irrefl x). eapply N.lt_trans; eassumption.
      * subst y. revert E. apply N.lt_irrefl.
Qed.

(** C3: the normalisation comparator is a strict total order (irreflexive,
    transitive, any two different pairs are ordered one way); pairs with
    different keys are ordered by their keys alone and pairs with equal keys
    by their values, both lexicographically on the code units of the raw
    strings; sorting with it returns an ordered rearrangement of the list,
    and sorting a second time changes nothing. *)
Theorem normalizedParameterSort_strict_total_order :
  (forall a, normalizedParameterSort a a = false)
  /\ (forall a b c,
        normalizedParameterSort a b = true ->
        normalizedParameterSort b c = true ->
        normalizedParameterSort a c = true)
  /\ (forall a b,
        normalizedParameterSort a b = true \/ a = b
        \/ normalizedParameterSort b a = true)
  /\ (forall a b,
        fst a <> fst b ->
        (normalizedParameterSort a b = true <-> lexBefore (fst a) (fst b)))
  /\ (forall a b,
        fst a = fst b ->
        (normalizedParameterSort a b = true <-> lexBefore (snd a) (snd b)))
  /\ (forall l,
        Permutation (qSort normalizedParameterSort l) l
        /\ StronglySorted (notAfter normalizedParameterSort)
             (qSort normalizedParameterSort l))
  /\ (forall l,
        qSort normalizedParameterSort (qSort normalizedParameterSort l)
        = qSort normalizedParameterSort l).
Proof.
  split; [exact normalizedParameterSort_irrefl|].
  split; [exact normalizedParameterSort_trans|].
  split; [exact normalizedParameterSort_total|].
  split.
  { intros a b Hk. unfold normalizedParameterSort; simpl.
    apply QString_eq_false in Hk. rewrite Hk. apply QString_lt_lexBefore. }
  split.
  { intros a b Hk. unfold normalizedParameterSort; simpl.
    apply QString_eq_true in Hk. rewrite Hk. apply QString_lt_lexBefore. }
  split.
  { intros l. split.
    - apply qSort_perm.
    - apply qSort_sorted.
      + exact normalizedParameterSort_irrefl.
      + exact normalizedParameterSort_trans.
      + exact normalizedParameterSort_total. }
  intros l. apply qSort_idempotent.
  - exact normalizedParameterSort_irrefl.
  - exact normalizedParameterSort_trans.
  - exact normalizedParameterSort_total.
Qed.

(** ** Percent-encoding, byte by byte *)

Lemma In_existsb (c : ascii) (l : list ascii) :
  In c l <-> existsb (Ascii.eqb c) l = true.
Proof.
  rewrite existsb_exists. split.
  - intros H. exists c. split; [exact H | apply Ascii.eqb_refl].
  - intros [x [Hx E]]. apply Ascii.eqb_eq in E. now subst.
Qed.

Lemma isUnreserved_chars (c : ascii) :
  isUnreserved c = existsb (Ascii.eqb c) unreservedChars.
Proof.
  destruct c as [[] [] [] [] [] [] [] []]; vm_compute; reflexivity.
Qed.

Lemma isUnreserved_spec (c : ascii) :
  isUnreserved c = true <-> In c unreservedChars.
Proof. now rewrite In_existsb, isUnreserved_chars. Qed.

Lemma percentEncodeByte_hex (c : ascii) :
  exists h l a b,
    percentEncodeByte c = String "%" (String h (String l EmptyString))
    /\ upperHexValue h = Some a /\ upperHexValue l = Some b
    /\ (16 * a + b = N_of_ascii c)%N.
Proof.
  destruct c as [[] [] [] [] [] [] [] []];
    do 4 eexists; (split; [reflexivity|]);
    (split; [vm_compute; reflexivity|]);
    (split; [vm_compute; reflexivity|]); vm_compute; reflexivity.
Qed.

Lemma concat_separators (sep x : string) (xs : list string) :
  x +++ String.concat EmptyString (map (fun y => sep +++ y) xs)
  = String.concat sep (x :: xs).
Proof.
  revert x. induction xs as [|y xs IH]; intros x.
  - simpl. apply append_empty_r.
  - change (String.concat sep (x :: y :: xs))
      with (x +++ sep +++ String.concat sep (y :: xs)).
    rewrite <- IH. f_equal. destruct xs as [|z xs]; simpl.
    + now rewrite append_empty_r.
    + now rewrite append_assoc.
Qed.

(** ** Maps *)

Lemma QMap_insert_bound (k v k0 : QString) (m : QMap) :
  QString_lt k0 k = true ->
  Forall (fun b => QString_lt k0 (fst b) = true) m ->
  Forall (fun b => QString_lt k0 (fst b) = true) (QMap_insert k v m).
Proof.
  intros Hk. induction 1 as [|[k' v'] m Hx Hm IH]; simpl.
  - now repeat constructor.
  - destruct (QString_lt k k'); [|destruct (QString_eq k k')].
    + constructor; [exact Hk | now constructor].
    + now constructor.
    + now constructor.
Qed.

Lemma QMap_insert_ordered (k v : QString) (m : QMap) :
  QMap_ordered m -> QMap_ordered (QMap_insert k v m).
Proof.
  unfold QMap_ordered. induction 1 as [|[k' v'] m Hs IH Hx]; simpl.
  - repeat constructor.
  - destruct (QString_lt k k') eqn:Elt; [|destruct (QString_eq k k') eqn:Eeq].
    + constructor; [now constructor|].
      constructor; [exact Elt|].
      eapply Forall_impl; [|exact Hx].
      intros b Hb. simpl in *. eapply QString_lt_trans; eassumption.
    + apply QString_eq_true in Eeq. subst k'. now constructor.
    + constructor; [exact IH|].
      apply QMap_insert_bound; [|exact Hx]. simpl.
      destruct (QString_lt_total k k') as [H|[H|H]]; try congruence.
      subst. now rewrite (proj2 (QString_eq_true k' k') eq_refl) in Eeq.
Qed.

Lemma QMap_fromList_ordered (entries : list (QString * QString)) :
  QMap_ordered (QMap_fromList entries).
Proof.
  induction entries as [|e entries IH]; simpl.
  - constructor.
  - now apply QMap_insert_ordered.
Qed.

Lemma QMap_ordered_keys (m : QMap) :
  QMap_ordered m ->
  StronglySorted (fun a b => QString_lt a b = true) (QMap_keys m).
Proof.
  unfold QMap_ordered, QMap_keys.
  induction 1 as [|a l Hs IH Ha]; cbn [map]; constructor.
  - exact IH.
  - apply Forall_map. exact Ha.
Qed.

Lemma QMap_keys_values (m : QMap) :
  combine (QMap_keys m) (QMap_values m) = m.
Proof.
  induction m as [|[k v] m IH]; simpl; [reflexivity | now rewrite IH].
Qed.

Lemma skipn_nth {A : Type} (d : A) (l : list A) :
  forall i, i < List.length l -> skipn i l = nth i l d :: skipn (S i) l.
Proof.
  induction l as [|x l IH]; intros [|i] H; simpl in *; try lia; auto.
  apply IH. lia.
Qed.

Lemma insertLoop_spec (m : QMap) :
  forall n i requestParams,
    i + n = List.length m ->
    insertLoop (QMap_keys m) (QMap_values m) i n requestParams
    = requestParams ++ skipn i m.
Proof.
  unfold QMap_keys, QMap_values.
  induction n as [|n IH]; intros i l H.
  - simpl. rewrite skipn_all2 by lia. now rewrite app_nil_r.
  - cbn [insertLoop]. rewrite IH by lia. rewrite <- app_assoc. f_equal.
    rewrite (@skipn_nth (QString * QString) ([], []) m i) by lia.
    cbn [app]. f_equal.
    rewrite (surjective_pairing (nth i m ([], []))). f_equal.
    + exact (map_nth fst m ([], []) i).
    + exact (map_nth snd m ([], []) i).
Qed.

Lemma insertLoop_all (m : QMap) (requestParams : list (QString * QString)) :
  insertLoop (QMap_keys m) (QMap_values m) 0 (List.length (QMap_keys m))
    requestParams
  = requestParams ++ m.
Proof.
  rewrite insertLoop_spec; [reflexivity|].
  unfold QMap_keys. now rewrite length_map.
Qed.

(** ** Running the methods *)

#[local] Arguments qs _ : simpl never.

(** Reduce the projections and setters of the records, nothing else. *)
Ltac fields :=
  cbn [self requestType d_ptr clockReads qWarnings fst snd
       oauthRequestEndpoint oauthCallbackUrl oauthHttpMethod oauthConsumerKey
       oauthConsumerSecretKey oauthTokenSecret oauthSignatureMethod
       oauthVersion oauthTimestamp_ oauthNonce_ additionalParams
       requestParameters
       set_oauthRequestEndpoint set_oauthCallbackUrl set_oauthHttpMethod
       set_oauthConsumerKey set_oauthConsumerSecretKey
       set_oauthSignatureMethod set_oauthVersion set_oauthTimestamp_
       set_oauthNonce_ set_additionalParams set_requestParameters] in *.

Lemma withParameters_same (r : Run) :
  withParameters (params r) (clockReads r) r = r.
Proof. destruct r as [[t []] k w]; reflexivity. Qed.

Section RequestFacts.

Context {qt : Platform}.

Lemma encodedParamaterList_fold (l : list (QString * QString)) :
  forall acc,
    fst (fold_left
           (fun (st : QByteArray * bool) (parameter : QString * QString) =>
              let (resultList, first) := st in
              let (resultList, first) :=
                if negb first then (resultList +++ "%26", first)
                else (resultList, false) in
              (resultList +++
                 (QUrl_toPercentEncoding (fst parameter)
                  +++ "%3D"
                  +++ QUrl_toPercentEncoding (snd parameter)),
               first))
           l (acc, false))
    = acc +++ String.concat EmptyString
                (map (fun y => "%26" +++ y)
                   (map (fun p => QUrl_toPercentEncoding (fst p) +++ "%3D"
                                  +++ QUrl_toPercentEncoding (snd p)) l)).
Proof.
  induction l as [|p l IH]; intros acc.
  - simpl. now rewrite append_empty_r.
  - cbn [fold_left negb map]. rewrite IH. rewrite !append_assoc.
    f_equal. cbn [String.concat].
    destruct (map _ (map _ l)); simpl; rewrite ?append_assoc;
      rewrite ?append_empty_r; reflexivity.
Qed.

Lemma encodedParamaterList_concat (l : list (QString * QString)) :
  encodedParamaterList l
  = String.concat "%26"
      (map (fun p => QUrl_toPercentEncoding (fst p) +++ "%3D"
                     +++ QUrl_toPercentEncoding (snd p)) l).
Proof.
  unfold encodedParamaterList. destruct l as [|p l]; [reflexivity|].
  cbn [fold_left negb map]. rewrite encodedParamaterList_fold.
  exact (concat_separators "%26"
           (QUrl_toPercentEncoding (fst p) +++ "%3D"
            +++ QUrl_toPercentEncoding (snd p))
           (map (fun p => QUrl_toPercentEncoding (fst p) +++ "%3D"
                          +++ QUrl_toPercentEncoding (snd p)) l)).
Qed.

Lemma oauthTimestamp_run (r : Run) :
  oauthTimestamp r
  = (timestampValue (d_ptr (self r)) (clockReads r),
     mkRun (self r) (timestampReads (d_ptr (self r)) + clockReads r)
           (qWarnings r)).
Proof.
  destruct r as [[t d] k w].
  unfold oauthTimestamp, timestampValue, timestampReads, bind, get_d, ret,
    currentDateTime_toTime_t; simpl.
  destruct (QString_isEmpty (oauthTimestamp_ d)); reflexivity.
Qed.

Lemma oauthNonce_run (r : Run) :
  oauthNonce r
  = (nonceValue (d_ptr (self r)) (clockReads r),
     mkRun (self r) (nonceReads (d_ptr (self r)) + clockReads r)
           (qWarnings r)).
Proof.
  destruct r as [[t d] k w].
  unfold oauthNonce, nonceValue, nonceReads, bind, get_d; simpl.
  destruct (QString_isEmpty (oauthNonce_ d)); [|reflexivity]. simpl.
  unfold timestampValue, timestampReads.
  destruct (QString_isEmpty (oauthTimestamp_ d)) eqn:E.
  - rewrite oauthTimestamp_run. unfold timestampValue, timestampReads.
    simpl. rewrite E. reflexivity.
  - reflexivity.
Qed.

Lemma prepareRequest_run (r : Run) :
  prepareRequest r
  = (true,
     if (requestType (self r) =? TemporaryCredentials)%Z then
       withParameters
         (params r ++ preparedParameters (d_ptr (self r)) (clockReads r))
         (nonceReads (d_ptr (self r))
          + (timestampReads (d_ptr (self r)) + clockReads r)) r
     else r).
Proof.
  destruct r as [[t d] k w]. destruct d.
  unfold prepareRequest, bind, get_requestType. fields.
  destruct (t =? TemporaryCredentials)%Z; [|reflexivity].
  unfold get_d, requestParameters_append, modify_d, ret. fields.
  rewrite oauthTimestamp_run. fields.
  rewrite oauthNonce_run. fields.
  unfold insertAdditionalParams, modify_d. fields.
  rewrite insertLoop_all.
  unfold withParameters, params, preparedParameters. fields.
  repeat rewrite <- app_assoc. reflexivity.
Qed.

Lemma requestBaseString_run (r : Run) :
  requestBaseString r
  = (baseStringOf r, withParameters (signedParameters r) (readsAfter r) r).
Proof.
  destruct r as [[t d] k w]. destruct d.
  unfold requestBaseString, bind. rewrite prepareRequest_run.
  unfold baseStringOf, signedParameters, readsAfter, baseStringHead,
    withParameters, params, get_d, get_requestType, modify_d, ret.
  fields.
  destruct (t =? TemporaryCredentials)%Z eqn:E; fields; rewrite E; fields;
    rewrite !append_assoc; reflexivity.
Qed.

Lemma oauthSignature_run (r : Run) :
  oauthSignature r
  = (signatureOf r, withParameters (signedParameters r) (readsAfter r) r).
Proof.
  unfold oauthSignature, bind. rewrite requestBaseString_run.
  destruct r as [[t d] k w]. destruct d; reflexivity.
Qed.

Lemma signRequest_run (r : Run) :
  signRequest r
  = (tt,
     withParameters
       (signedParameters r ++ [(OAUTH_KEY_SIGNATURE, signatureOf r)])
       (readsAfter r) r).
Proof.
  unfold signRequest, bind. rewrite oauthSignature_run.
  destruct r as [[t d] k w]. destruct d; reflexivity.
Qed.

Lemma KQOAuthRequest_requestParameters_run (r : Run) :
  KQOAuthRequest_requestParameters r
  = (map keyValueBytes
       (signedParameters r ++ [(OAUTH_KEY_SIGNATURE, signatureOf r)]),
     mkRun
       (mkRequest (requestType (self r))
          (set_requestParameters
             (signedParameters r ++ [(OAUTH_KEY_SIGNATURE, signatureOf r)])
             (d_ptr (self r))))
       (readsAfter r)
       (if validateRequest (self r) then
          qWarnings r
          ++ ["Request is not valid! I will still sign it, but it will probably not work."%string]
        else qWarnings r)).
Proof.
  unfold KQOAuthRequest_requestParameters, bind.
  destruct (validateRequest (self r)) eqn:E.
  - unfold qWarning. rewrite signRequest_run.
    destruct r as [[t d] k w]. destruct d; reflexivity.
  - unfold ret at 1. rewrite signRequest_run.
    destruct r as [[t d] k w]. destruct d; reflexivity.
Qed.

Lemma requestBaseString_params (r : Run) :
  params (snd (requestBaseString r)) = signedParameters r.
Proof.
  rewrite requestBaseString_run.
  destruct r as [[t d] k w]; destruct d; reflexivity.
Qed.

Lemma signedParameters_TemporaryCredentials (r : Run) :
  requestType (self r) = TemporaryCredentials ->
  signedParameters r
  = qSort normalizedParameterSort
      (params r ++ preparedParameters (d_ptr (self r)) (clockReads r)).
Proof. intros H. unfold signedParameters. now rewrite H. Qed.

(** One call of [requestParameters()] changes the stored list, the clock
    position and the log, and nothing else. *)
Lemma call_self (r : Run) :
  self (snd (KQOAuthRequest_requestParameters r))
  = mkRequest (requestType (self r))
      (set_requestParameters
         (signedParameters r ++ [(OAUTH_KEY_SIGNATURE, signatureOf r)])
         (d_ptr (self r))).
Proof. now rewrite KQOAuthRequest_requestParameters_run. Qed.

Lemma preparedParameters_set (l : list (QString * QString))
  (d : KQOAuthRequestPrivate) (n : nat) :
  preparedParameters (set_requestParameters l d) n = preparedParameters d n.
Proof. destruct d; reflexivity. Qed.

Lemma baseStringHead_set (l : list (QString * QString))
  (d : KQOAuthRequestPrivate) :
  baseStringHead (set_requestParameters l d) = baseStringHead d.
Proof. destruct d; reflexivity. Qed.

Lemma signingKey_set (l : list (QString * QString))
  (d : KQOAuthRequestPrivate) :
  signingKey (set_requestParameters l d) = signingKey d.
Proof. destruct d; reflexivity. Qed.

Lemma keyCount_single (k key value : QString) :
  keyCount k [(key, value)] = if QString_eq_dec key k then 1 else 0.
Proof. unfold keyCount. simpl. destruct (QString_eq_dec key k); reflexivity. Qed.

End RequestFacts.

(** ** Key counts *)

Lemma keyCount_app (k : QString) (l1 l2 : list (QString * QString)) :
  keyCount k (l1 ++ l2) = keyCount k l1 + keyCount k l2.
Proof. unfold keyCount. now rewrite map_app, count_occ_app. Qed.

Lemma keyCount_perm (k : QString) (l1 l2 : list (QString * QString)) :
  Permutation l1 l2 -> keyCount k l1 = keyCount k l2.
Proof.
  intros H. unfold keyCount.
  apply (Permutation_count_occ QString_eq_dec (map fst l1) (map fst l2)).
  now apply Permutation_map.
Qed.

Lemma keyCount_qSort (k : QString) (l : list (QString * QString)) :
  keyCount k (qSort normalizedParameterSort l) = keyCount k l.
Proof. apply keyCount_perm, qSort_perm. Qed.

Lemma keyCount_preparedParameters {qt : Platform} (k : QString)
  (d : KQOAuthRequestPrivate) (n : nat) :
  keyCount k (preparedParameters d n)
  = count_occ QString_eq_dec protocolKeys k
    + count_occ QString_eq_dec (QMap_keys (additionalParams d)) k.
Proof. unfold preparedParameters. rewrite keyCount_app. reflexivity. Qed.

Lemma signature_not_protocolKey :
  count_occ QString_eq_dec protocolKeys OAUTH_KEY_SIGNATURE = 0.
Proof. vm_compute. reflexivity. Qed.

Lemma protocolKey_once (k : QString) :
  In k protocolKeys ->
  count_occ QString_eq_dec protocolKeys k = 1 /\ k <> OAUTH_KEY_SIGNATURE.
Proof.
  intros H. repeat (destruct H as [<-|H]; [split; [vm_compute; reflexivity | discriminate]|]).
  destruct H.
Qed.

Lemma QUrl_toString_RemoveQuery (u : QUrl) :
  QUrl_toString true u = QUrl_toString false (withoutQuery u).
Proof.
  unfold QUrl_toString, withoutQuery; simpl.
  destruct (url_query u); reflexivity.
Qed.

(** * The claims *)

Section Claims.

Context {qt : Platform}.

(** C1: [requestBaseString] returns the stored HTTP method token, a raw
    [&], the percent-encoded text of the endpoint without its query, a
    raw [&] and the encoded parameter list.  For [TemporaryCredentials]
    that list is the stored list extended by [prepareRequest] and sorted
    with [normalizedParameterSort]; for every other request type it is the
    stored list as it stands, unsorted.  The method token [setHttpMethod]
    stores consists of uppercase letters: [GET] for GET, [POST] for POST. *)
Theorem requestBaseString_layout :
  (forall r : Run,
      requestType (self r) = TemporaryCredentials ->
      fst (requestBaseString r)
      = toUtf8 (oauthHttpMethod (d_ptr (self r))) +++ "&"
        +++ QUrl_toPercentEncoding
              (QUrl_toString true (oauthRequestEndpoint (d_ptr (self r))))
        +++ "&"
        +++ encodedParamaterList
              (qSort normalizedParameterSort
                 (params r
                  ++ preparedParameters (d_ptr (self r)) (clockReads r)))
      /\ params (snd (requestBaseString r))
         = qSort normalizedParameterSort
             (params r
              ++ preparedParameters (d_ptr (self r)) (clockReads r)))
  /\ (forall r : Run,
        requestType (self r) <> TemporaryCredentials ->
        fst (requestBaseString r)
        = toUtf8 (oauthHttpMethod (d_ptr (self r))) +++ "&"
          +++ QUrl_toPercentEncoding
                (QUrl_toString true (oauthRequestEndpoint (d_ptr (self r))))
          +++ "&"
          +++ encodedParamaterList (params r)
        /\ snd (requestBaseString r) = r)
  /\ (forall u : QUrl,
        QUrl_toString true u = QUrl_toString false (withoutQuery u))
  /\ (forall (m : RequestHttpMethod) (r : Run),
        let token :=
          oauthHttpMethod (d_ptr (self (snd (setHttpMethod m r)))) in
        forallb isUpperLetter token = true
        /\ (m = GET -> token = qs "GET")
        /\ (m = POST -> token = qs "POST")).
Proof.
  split; [|split; [|split]].
  - intros r H. rewrite requestBaseString_run.
    unfold baseStringOf, baseStringHead, signedParameters.
    rewrite H. cbn [fst snd Z.eqb TemporaryCredentials].
    split; [now rewrite !append_assoc|].
    destruct r as [[t d] k w]; destruct d; reflexivity.
  - intros r H. rewrite requestBaseString_run.
    unfold baseStringOf, baseStringHead, signedParameters, readsAfter.
    apply Z.eqb_neq in H. rewrite H. cbn [fst snd].
    split; [now rewrite !append_assoc | apply withParameters_same].
  - exact QUrl_toString_RemoveQuery.
  - intros m r token. subst token.
    destruct r as [[t d] k w]; destruct d.
    destruct m; (split; [reflexivity | split; [intros E | intros E]]);
      try discriminate; reflexivity.
Qed.

(** C2: [encodedParamaterList] is, for the pairs in their order, the
    percent-encoded key, the token [%3D] and the percent-encoded value,
    with the token [%26] between successive pairs.  Percent-encoding
    works on the UTF-8 bytes of the text: an unreserved character
    (A-Z a-z 0-9 - . _ ~) is copied, any other byte becomes [%] and its
    two uppercase hexadecimal digits.  Equal lists give equal results. *)
Theorem encodedParamaterList_spec :
  (forall parameters : list (QString * QString),
      encodedParamaterList parameters
      = String.concat "%26"
          (map (fun p => QUrl_toPercentEncoding (fst p) +++ "%3D"
                         +++ QUrl_toPercentEncoding (snd p)) parameters))
  /\ (forall input : QString,
        QUrl_toPercentEncoding input = q_toPercentEncoding (toUtf8 input))
  /\ q_toPercentEncoding EmptyString = EmptyString
  /\ (forall (c : ascii) (rest : QByteArray),
        In c unreservedChars ->
        q_toPercentEncoding (String c rest)
        = String c (q_toPercentEncoding rest))
  /\ (forall (c : ascii) (rest : QByteArray),
        ~ In c unreservedChars ->
        exists (h l : ascii) (a b : N),
          q_toPercentEncoding (String c rest)
          = String "%" (String h (String l (q_toPercentEncoding rest)))
          /\ upperHexValue h = Some a /\ upperHexValue l = Some b
          /\ (16 * a + b = N_of_ascii c)%N)
  /\ (forall p1 p2 : list (QString * QString),
        p1 = p2 -> encodedParamaterList p1 = encodedParamaterList p2).
Proof.
  split; [exact encodedParamaterList_concat|].
  split; [reflexivity|].
  split; [reflexivity|].
  split.
  { intros c rest H. apply isUnreserved_spec in H.
    cbn [q_toPercentEncoding]. now rewrite H. }
  split.
  { intros c rest H.
    assert (E : isUnreserved c = false).
    { destruct (isUnreserved c) eqn:E; [|reflexivity].
      apply isUnreserved_spec in E. contradiction. }
    destruct (percentEncodeByte_hex c) as [h [l [a [b [Hp Hr]]]]].
    exists h, l, a, b. split; [|exact Hr].
    cbn [q_toPercentEncoding]. rewrite E, Hp. reflexivity. }
  intros p1 p2 ->. reflexivity.
Qed.

(** C4: for [TemporaryCredentials], [prepareRequest] returns true and
    appends to the stored list, in this order, [oauth_callback] with the
    percent-encoded text of the callback URL, [oauth_signature_method],
    [oauth_consumer_key], [oauth_version], [oauth_timestamp] with what
    [oauthTimestamp] returns, [oauth_nonce] with what [oauthNonce] returns
    next, and then the additional parameters as plain (key, value) pairs,
    key [i] with value [i] in the order of the map, which is ascending by
    key.  Nothing else of the object changes. *)
Theorem prepareRequest_TemporaryCredentials (r : Run) :
  requestType (self r) = TemporaryCredentials ->
  let d := d_ptr (self r) in
  let afterTimestamp := snd (oauthTimestamp r) in
  fst (prepareRequest r) = true
  /\ params (snd (prepareRequest r))
     = params r
       ++ [ (OAUTH_KEY_CALLBACK,
             QString_fromAscii
               (QUrl_toPercentEncoding
                  (QUrl_toString false (oauthCallbackUrl d))));
            (OAUTH_KEY_SIGNATURE_METHOD, oauthSignatureMethod d);
            (OAUTH_KEY_CONSUMER_KEY, oauthConsumerKey d);
            (OAUTH_KEY_VERSION, oauthVersion d);
            (OAUTH_KEY_TIMESTAMP, fst (oauthTimestamp r));
            (OAUTH_KEY_NONCE, fst (oauthNonce afterTimestamp)) ]
       ++ combine (QMap_keys (additionalParams d))
                  (QMap_values (additionalParams d))
  /\ snd (prepareRequest r)
     = withParameters (params (snd (prepareRequest r)))
         (clockReads (snd (oauthNonce afterTimestamp))) r
  /\ (forall entries,
        additionalParams d = QMap_fromList entries ->
        StronglySorted (fun a b => QString_lt a b = true)
          (QMap_keys (additionalParams d))).
Proof.
  intros H d afterTimestamp. subst d afterTimestamp.
  rewrite prepareRequest_run, H. cbn [Z.eqb TemporaryCredentials fst snd].
  rewrite oauthTimestamp_run. cbn [fst snd].
  rewrite oauthNonce_run. cbn [fst snd self d_ptr clockReads].
  split; [reflexivity|]. split; [|split].
  - rewrite QMap_keys_values.
    destruct r as [[t d] k w]; destruct d; reflexivity.
  - destruct r as [[t d] k w]; destruct d; reflexivity.
  - intros entries E. rewrite E.
    apply QMap_ordered_keys, QMap_fromList_ordered.
Qed.

(** C5: the signature is [hmac_sta1] of the base string under the key
    made of the consumer secret, the character [&] and the token secret;
    with an empty token secret the key still ends in [&].  Computing it
    leaves the object as computing the base string does. *)
Theorem oauthSignature_key (r : Run) :
  let d := d_ptr (self r) in
  fst (oauthSignature r)
  = hmac_sta1 (fst (requestBaseString r))
      (oauthConsumerSecretKey d ++ qs "&" ++ oauthTokenSecret d)
  /\ snd (oauthSignature r) = snd (requestBaseString r)
  /\ (oauthTokenSecret d = [] ->
      fst (oauthSignature r)
      = hmac_sta1 (fst (requestBaseString r))
          (oauthConsumerSecretKey d ++ qs "&")).
Proof.
  intros d. subst d.
  rewrite oauthSignature_run, requestBaseString_run. cbn [fst snd].
  unfold signatureOf, signingKey.
  split; [reflexivity|]. split; [reflexivity|].
  intros E. rewrite E. reflexivity.
Qed.

(** C7: [validateRequest] returns true exactly when the request type is
    [TemporaryCredentials] and the endpoint, the callback URL, the
    consumer key, the nonce, the signature method, the timestamp and the
    version are all non-empty; for [ResourceOwnerAuth] and [AccessToken]
    it returns false whatever the fields hold. *)
Theorem validateRequest_spec (q : KQOAuthRequest) :
  let d := d_ptr q in
  (validateRequest q = true <->
     requestType q = TemporaryCredentials
     /\ QUrl_isEmpty (oauthRequestEndpoint d) = false
     /\ QUrl_isEmpty (oauthCallbackUrl d) = false
     /\ QString_isEmpty (oauthConsumerKey d) = false
     /\ QString_isEmpty (oauthNonce_ d) = false
     /\ QString_isEmpty (oauthSignatureMethod d) = false
     /\ QString_isEmpty (oauthTimestamp_ d) = false
     /\ QString_isEmpty (oauthVersion d) = false)
  /\ (requestType q = ResourceOwnerAuth \/ requestType q = AccessToken ->
      validateRequest q = false).
Proof.
  intros d. subst d. unfold validateRequest. split.
  - destruct (requestType q =? TemporaryCredentials)%Z eqn:E.
    + apply Z.eqb_eq in E.
      destruct (QUrl_isEmpty (oauthRequestEndpoint (d_ptr q)));
      destruct (QUrl_isEmpty (oauthCallbackUrl (d_ptr q)));
      destruct (QString_isEmpty (oauthConsumerKey (d_ptr q)));
      destruct (QString_isEmpty (oauthNonce_ (d_ptr q)));
      destruct (QString_isEmpty (oauthSignatureMethod (d_ptr q)));
      destruct (QString_isEmpty (oauthTimestamp_ (d_ptr q)));
      destruct (QString_isEmpty (oauthVersion (d_ptr q)));
      simpl; split; intros H; try discriminate; try tauto;
      repeat match goal with H : _ /\ _ |- _ => destruct H end;
      discriminate.
    + apply Z.eqb_neq in E.
      destruct (requestType q =? ResourceOwnerAuth)%Z;
        [|destruct (requestType q =? AccessToken)%Z];
        (split; [discriminate | intros [H _]; contradiction]).
  - intros [H|H]; rewrite H; reflexivity.
Qed.

(** C8: when [validateRequest] returns false, [requestParameters()] still
    signs: after the call the stored list is the list the base string was
    computed from followed by one [oauth_signature] entry holding
    [oauthSignature]'s result, and the call returns the [key=value] bytes
    of exactly that list, the signature entry last.  No warning is
    printed on this path. *)
Theorem requestParameters_signs_when_invalid (r : Run) :
  validateRequest (self r) = false ->
  let out := KQOAuthRequest_requestParameters r in
  let signature := fst (oauthSignature r) in
  params (snd out)
  = params (snd (requestBaseString r)) ++ [(OAUTH_KEY_SIGNATURE, signature)]
  /\ fst out = map keyValueBytes (params (snd out))
  /\ last (fst out) EmptyString
     = toUtf8 (OAUTH_KEY_SIGNATURE ++ qs "=" ++ signature)
  /\ qWarnings (snd out) = qWarnings r.
Proof.
  intros H out signature. subst out signature.
  rewrite KQOAuthRequest_requestParameters_run, oauthSignature_run,
    requestBaseString_run, H.
  cbn [fst snd qWarnings]. unfold params, withParameters.
  cbn [self d_ptr].
  split; [|split; [|split]].
  - destruct r as [[t d] k w]; destruct d; reflexivity.
  - destruct r as [[t d] k w]; destruct d; reflexivity.
  - rewrite map_app. cbn [map]. rewrite last_last. reflexivity.
  - reflexivity.
Qed.

(** C9, as amended: [initRequest] never fails.  With an endpoint Qt
    calls invalid it prints a warning and returns at once: request type,
    endpoint, timestamp and nonce keep the values they had.  With a valid
    endpoint, empty or not, it stores the request type and the endpoint and
    fixes timestamp and nonce; a request type its check rejects (negative,
    or [AccessToken] and above) adds one warning and changes nothing of
    what is stored. *)
Theorem initRequest_spec (rtype : RequestType) (requestEndpoint : QUrl)
  (r : Run) :
  (QUrl_isValid requestEndpoint = false ->
   initRequest rtype requestEndpoint r
   = (tt,
      mkRun (self r) (clockReads r)
        (qWarnings r
         ++ ["Endpoint URL is not valid. Ignoring. This request might not work."%string])))
  /\ (QUrl_isValid requestEndpoint = true ->
      let r' := snd (initRequest rtype requestEndpoint r) in
      self r' = initialised rtype requestEndpoint r
      /\ requestType (self r') = rtype
      /\ oauthRequestEndpoint (d_ptr (self r')) = requestEndpoint
      /\ oauthTimestamp_ (d_ptr (self r')) = fst (oauthTimestamp r)
      /\ qWarnings r'
         = if ((rtype <? 0) || (rtype >=? AccessToken))%Z
           then qWarnings r
                ++ ["Invalid request type. Ignoring. This request might not work."%string]
           else qWarnings r).
Proof.
  unfold initRequest. split; intros H; rewrite H; cbn [negb]; cbv zeta.
  - reflexivity.
  - unfold bind, set_requestType, modify_d, qWarning, ret, initialised.
    rewrite (oauthTimestamp_run r).
    destruct r as [[t d] k w]; destruct d.
    destruct ((rtype <? 0) || (rtype >=? AccessToken))%Z; fields;
      rewrite oauthTimestamp_run; fields;
      rewrite oauthNonce_run; fields;
      repeat split.
Qed.

(** C6, as amended: on a call whose stored list holds no
    [oauth_signature] entry and whose additional parameters do not use
    that key, the list the base string is computed from holds no
    [oauth_signature] entry, and [requestParameters()] appends exactly one,
    as the last entry, after the base string and the signature have been
    computed. *)
Theorem oauth_signature_appended_last (r : Run) :
  keyCount OAUTH_KEY_SIGNATURE (params r) = 0 ->
  keyCount OAUTH_KEY_SIGNATURE (additionalParams (d_ptr (self r))) = 0 ->
  let signed := params (snd (requestBaseString r)) in
  let final := params (snd (KQOAuthRequest_requestParameters r)) in
  keyCount OAUTH_KEY_SIGNATURE signed = 0
  /\ fst (requestBaseString r)
     = baseStringHead (d_ptr (self r)) +++ encodedParamaterList signed
  /\ final = signed ++ [(OAUTH_KEY_SIGNATURE, fst (oauthSignature r))]
  /\ keyCount OAUTH_KEY_SIGNATURE final = 1.
Proof.
  intros H1 H2 signed final. subst signed final.
  rewrite KQOAuthRequest_requestParameters_run, oauthSignature_run,
    requestBaseString_run.
  cbn [fst snd].
  assert (E : params (withParameters (signedParameters r) (readsAfter r) r)
              = signedParameters r)
    by (destruct r as [[t d] k w]; destruct d; reflexivity).
  rewrite E.
  assert (C : keyCount OAUTH_KEY_SIGNATURE (signedParameters r) = 0).
  { unfold signedParameters.
    destruct (requestType (self r) =? TemporaryCredentials)%Z; [|exact H1].
    rewrite keyCount_qSort, keyCount_app, keyCount_preparedParameters, H1.
    unfold keyCount in H2. unfold QMap_keys.
    rewrite H2, signature_not_protocolKey. reflexivity. }
  split; [exact C|]. split; [reflexivity|].
  assert (F : params
                (mkRun
                   (mkRequest (requestType (self r))
                      (set_requestParameters
                         (signedParameters r
                          ++ [(OAUTH_KEY_SIGNATURE, signatureOf r)])
                         (d_ptr (self r))))
                   (readsAfter r)
                   (if validateRequest (self r)
                    then qWarnings r
                         ++ ["Request is not valid! I will still sign it, but it will probably not work."%string]
                    else qWarnings r))
              = signedParameters r ++ [(OAUTH_KEY_SIGNATURE, signatureOf r)])
    by (destruct r as [[t d] k w]; destruct d; reflexivity).
  rewrite F. split; [reflexivity|].
  rewrite keyCount_app, C. vm_compute. reflexivity.
Qed.

(** C10: a second [requestParameters()] on a [TemporaryCredentials]
    object that started with an empty stored list runs [prepareRequest] on
    the list the first call left.  The first call leaves the sorted
    protocol and additional parameters followed by its [oauth_signature]
    entry; the second call appends a second round of parameters, sorts the
    whole, computes base string and signature from that list, which
    contains the first [oauth_signature] entry, and appends a second one.
    In the list stored and returned after the second call every key occurs
    twice as often as in one round: each of the six protocol keys exactly
    twice unless an additional parameter uses it too, and [oauth_signature]
    two more times. *)
Theorem second_call_duplicates (r : Run) :
  requestType (self r) = TemporaryCredentials ->
  params r = [] ->
  let d := d_ptr (self r) in
  let r1 := snd (KQOAuthRequest_requestParameters r) in
  let second := KQOAuthRequest_requestParameters r1 in
  let signature1 := fst (oauthSignature r) in
  let signature2 := fst (oauthSignature r1) in
  let signed2 := params (snd (requestBaseString r1)) in
  params r1
  = qSort normalizedParameterSort (preparedParameters d (clockReads r))
    ++ [(OAUTH_KEY_SIGNATURE, signature1)]
  /\ signed2
     = qSort normalizedParameterSort
         (params r1 ++ preparedParameters d (clockReads r1))
  /\ In (OAUTH_KEY_SIGNATURE, signature1) signed2
  /\ fst (requestBaseString r1)
     = baseStringHead d +++ encodedParamaterList signed2
  /\ signature2 = hmac_sta1 (fst (requestBaseString r1)) (signingKey d)
  /\ params (snd second) = signed2 ++ [(OAUTH_KEY_SIGNATURE, signature2)]
  /\ fst second = map keyValueBytes (params (snd second))
  /\ (forall k : QString,
        keyCount k (params (snd second))
        = 2 * (count_occ QString_eq_dec protocolKeys k
               + count_occ QString_eq_dec
                   (QMap_keys (additionalParams d)) k)
          + (if QString_eq_dec OAUTH_KEY_SIGNATURE k then 2 else 0))
  /\ (forall k : QString,
        In k protocolKeys ->
        ~ In k (QMap_keys (additionalParams d)) ->
        keyCount k (params (snd second)) = 2).
Proof.
  intros Ht Hp d r1 second signature1 signature2 signed2.
  subst second signature1 signature2 signed2.
  assert (S1 : self r1
               = mkRequest TemporaryCredentials
                   (set_requestParameters
                      (qSort normalizedParameterSort
                         (preparedParameters d (clockReads r))
                       ++ [(OAUTH_KEY_SIGNATURE, signatureOf r)]) d)).
  { subst r1 d. rewrite call_self, Ht.
    rewrite (signedParameters_TemporaryCredentials r Ht), Hp.
    reflexivity. }
  assert (P1 : params r1
               = qSort normalizedParameterSort
                   (preparedParameters d (clockReads r))
                 ++ [(OAUTH_KEY_SIGNATURE, signatureOf r)]).
  { unfold params. rewrite S1. destruct d; reflexivity. }
  assert (T1 : requestType (self r1) = TemporaryCredentials)
    by now rewrite S1.
  assert (D1 : forall n,
             preparedParameters (d_ptr (self r1)) n = preparedParameters d n)
    by (intros n; rewrite S1; apply preparedParameters_set).
  assert (Sg : signedParameters r1
               = qSort normalizedParameterSort
                   (params r1 ++ preparedParameters d (clockReads r1)))
    by (rewrite (signedParameters_TemporaryCredentials r1 T1), D1;
        reflexivity).
  rewrite !oauthSignature_run. rewrite !requestBaseString_params.
  rewrite requestBaseString_run. cbn [fst snd].
  assert (F : params (snd (KQOAuthRequest_requestParameters r1))
              = signedParameters r1
                ++ [(OAUTH_KEY_SIGNATURE, signatureOf r1)]).
  { unfold params. rewrite call_self.
    destruct (d_ptr (self r1)); reflexivity. }
  assert (C : forall k,
             keyCount k (params (snd (KQOAuthRequest_requestParameters r1)))
             = 2 * (count_occ QString_eq_dec protocolKeys k
                    + count_occ QString_eq_dec
                        (QMap_keys (additionalParams d)) k)
               + (if QString_eq_dec OAUTH_KEY_SIGNATURE k then 2 else 0)).
  { intros k. rewrite F, keyCount_app, Sg, keyCount_qSort, keyCount_app, P1,
      keyCount_app, keyCount_qSort, !keyCount_preparedParameters,
      !keyCount_single.
    destruct (QString_eq_dec OAUTH_KEY_SIGNATURE k); lia. }
  split; [exact P1|]. split; [exact Sg|]. split.
  { rewrite Sg.
    apply (Permutation_in _
             (Permutation_sym (qSort_perm normalizedParameterSort _))).
    rewrite P1. apply in_or_app. left. apply in_or_app. right. now left. }
  split.
  { unfold baseStringOf. rewrite S1. cbn [d_ptr].
    now rewrite baseStringHead_set. }
  split.
  { unfold signatureOf.
    rewrite S1. cbn [d_ptr]. now rewrite signingKey_set. }
  split; [exact F|]. split.
  { rewrite KQOAuthRequest_requestParameters_run. cbn [fst snd].
    unfold params. cbn [self d_ptr].
    destruct (d_ptr (self r1)); reflexivity. }
  split; [exact C|].
  intros k Hin Hnot. rewrite C.
  destruct (protocolKey_once k Hin) as [Hone Hneq]. rewrite Hone.
  rewrite (proj1 (count_occ_not_In QString_eq_dec _ k) Hnot).
  destruct (QString_eq_dec OAUTH_KEY_SIGNATURE k); [congruence | reflexivity].
Qed.

End Claims.

(** * The claims on concrete requests *)

#[local] Existing Instance examplePlatform.

(** The request of section 8 with one additional parameter. *)
Lemma requestBaseString_layout_witness :
  requestType (self (exampleRequest [(qs "scope", qs "a b")]))
  = TemporaryCredentials
  /\ fst (requestBaseString (exampleRequest [(qs "scope", qs "a b")]))
     = "POST&https%3A%2F%2Fexample.com%2Frequest_token&oauth_callback%3Dhttps%253A%252F%252Fexample.com%252Fcb%26oauth_consumer_key%3Dck%26oauth_nonce%3Dabc123%26oauth_signature_method%3DHMAC_SHA1%26oauth_timestamp%3D1300000000%26oauth_version%3D1.0%26scope%3Da%20b"%string.
Proof.
  split; [reflexivity|].
  destruct (proj1 requestBaseString_layout
              (exampleRequest [(qs "scope", qs "a b")]) eq_refl) as [H _].
  rewrite H. vm_compute. reflexivity.
Defined.

Lemma encodedParamaterList_spec_witness :
  In "~"%char unreservedChars
  /\ q_toPercentEncoding "~/"%string
     = String "~" (q_toPercentEncoding "/"%string).
Proof.
  assert (H : In "~"%char unreservedChars)
    by (apply In_existsb; reflexivity).
  split; [exact H|].
  destruct (@encodedParamaterList_spec examplePlatform)
    as [_ [_ [_ [Hcopy _]]]].
  exact (Hcopy "~"%char "/"%string H).
Defined.

Lemma normalizedParameterSort_strict_total_order_witness :
  normalizedParameterSort (qs "a", qs "2") (qs "b", qs "1") = true
  /\ normalizedParameterSort (qs "b", qs "1") (qs "b", qs "10") = true
  /\ normalizedParameterSort (qs "a", qs "2") (qs "b", qs "10") = true.
Proof.
  assert (H1 : normalizedParameterSort (qs "a", qs "2") (qs "b", qs "1") = true)
    by reflexivity.
  assert (H2 : normalizedParameterSort (qs "b", qs "1") (qs "b", qs "10") = true)
    by reflexivity.
  split; [exact H1|]. split; [exact H2|].
  destruct normalizedParameterSort_strict_total_order as [_ [Htrans _]].
  exact (Htrans _ _ _ H1 H2).
Defined.

Lemma prepareRequest_TemporaryCredentials_witness :
  requestType
    (self (exampleRequest (QMap_fromList [(qs "z", qs "1"); (qs "a", qs "2")])))
  = TemporaryCredentials
  /\ params
       (snd (prepareRequest
               (exampleRequest
                  (QMap_fromList [(qs "z", qs "1"); (qs "a", qs "2")]))))
     = [ (qs "oauth_callback", qs "https%3A%2F%2Fexample.com%2Fcb");
         (qs "oauth_signature_method", qs "HMAC_SHA1");
         (qs "oauth_consumer_key", qs "ck");
         (qs "oauth_version", qs "1.0");
         (qs "oauth_timestamp", qs "1300000000");
         (qs "oauth_nonce", qs "abc123");
         (qs "a", qs "2");
         (qs "z", qs "1") ].
Proof.
  split; [reflexivity|].
  destruct (prepareRequest_TemporaryCredentials
              (exampleRequest
                 (QMap_fromList [(qs "z", qs "1"); (qs "a", qs "2")]))
              eq_refl) as [_ [H _]].
  rewrite H. vm_compute. reflexivity.
Defined.

Lemma oauthSignature_key_witness :
  oauthTokenSecret (d_ptr (self (exampleRequest []))) = []
  /\ fst (oauthSignature (exampleRequest []))
     = hmac_sta1 (fst (requestBaseString (exampleRequest []))) (qs "cs&").
Proof.
  split; [reflexivity|].
  destruct (oauthSignature_key (exampleRequest [])) as [_ [_ H]].
  exact (H eq_refl).
Defined.

Lemma validateRequest_spec_witness :
  requestType (mkRequest AccessToken (d_ptr (self (exampleRequest []))))
  = AccessToken
  /\ validateRequest
       (mkRequest AccessToken (d_ptr (self (exampleRequest [])))) = false.
Proof.
  split; [reflexivity|].
  apply (proj2 (validateRequest_spec
                  (mkRequest AccessToken (d_ptr (self (exampleRequest [])))))).
  right. reflexivity.
Defined.

(** A new object, nothing set: invalid, and signed all the same. *)
Lemma requestParameters_signs_when_invalid_witness :
  validateRequest (self (KQOAuthRequest_new TemporaryCredentials)) = false
  /\ fst (KQOAuthRequest_requestParameters
            (KQOAuthRequest_new TemporaryCredentials))
     = [ "oauth_callback="%string; "oauth_consumer_key="%string;
         "oauth_nonce=md5(1300000001)"%string;
         "oauth_signature_method=HMAC_SHA1"%string;
         "oauth_timestamp=1300000000"%string; "oauth_version=1.0"%string;
         "oauth_signature=hmac(&,POST&&oauth_callback%3D%26oauth_consumer_key%3D%26oauth_nonce%3Dmd5%281300000001%29%26oauth_signature_method%3DHMAC_SHA1%26oauth_timestamp%3D1300000000%26oauth_version%3D1.0)"%string ].
Proof.
  split; [reflexivity|].
  destruct (requestParameters_signs_when_invalid
              (KQOAuthRequest_new TemporaryCredentials) eq_refl)
    as [_ [H _]].
  rewrite H. vm_compute. reflexivity.
Defined.

(** A request initialised for [ResourceOwnerAuth], then handed an invalid
    endpoint together with [TemporaryCredentials]. *)
Lemma initRequest_invalid_endpoint_counterexample :
  let r1 :=
    snd (initRequest ResourceOwnerAuth
           (url "https://example.com/request_token")
           (KQOAuthRequest_new TemporaryCredentials)) in
  let r2 := snd (initRequest TemporaryCredentials QUrl_null r1) in
  QUrl_isValid QUrl_null = false
  /\ QUrl_isEmpty QUrl_null = true
  /\ requestType (self r2) <> TemporaryCredentials
  /\ oauthRequestEndpoint (d_ptr (self r2)) <> QUrl_null
  /\ self r2 <> initialised TemporaryCredentials QUrl_null r1.
Proof.
  vm_compute. repeat split; discriminate.
Qed.

Lemma initRequest_spec_witness :
  QUrl_isValid QUrl_null = false
  /\ QUrl_isValid (url "https://example.com/request_token") = true
  /\ self (snd (initRequest TemporaryCredentials QUrl_null (exampleRequest [])))
     = self (exampleRequest [])
  /\ requestType
       (self (snd (initRequest 7%Z (url "https://example.com/request_token")
                     (exampleRequest []))))
     = 7%Z.
Proof.
  split; [reflexivity|]. split; [reflexivity|].
  destruct (initRequest_spec TemporaryCredentials QUrl_null (exampleRequest []))
    as [Hbad _].
  destruct (initRequest_spec 7%Z (url "https://example.com/request_token")
              (exampleRequest [])) as [_ Hgood].
  split.
  - rewrite (Hbad eq_refl). reflexivity.
  - exact (proj1 (proj2 (Hgood eq_refl))).
Defined.

(** Two requests on which an [oauth_signature] entry is in the list the
    base string is computed from.  On the first an additional parameter is
    itself called [oauth_signature]: the entry is encoded into the base string
    and the finished list holds two.  The second is the request of section 8
    on its second call: the entry the first call appended last is still
    stored, is sorted into the list the second base string is computed from,
    and a second entry is appended. *)
Lemma oauth_signature_present_counterexample :
  let r := exampleRequest (QMap_fromList [(qs "oauth_signature", qs "x")]) in
  let r1 := snd (KQOAuthRequest_requestParameters (exampleRequest [])) in
  (keyCount OAUTH_KEY_SIGNATURE (params r) = 0
   /\ keyCount OAUTH_KEY_SIGNATURE (params (snd (requestBaseString r))) = 1
   /\ fst (requestBaseString r)
      = "POST&https%3A%2F%2Fexample.com%2Frequest_token&oauth_callback%3Dhttps%253A%252F%252Fexample.com%252Fcb%26oauth_consumer_key%3Dck%26oauth_nonce%3Dabc123%26oauth_signature%3Dx%26oauth_signature_method%3DHMAC_SHA1%26oauth_timestamp%3D1300000000%26oauth_version%3D1.0"%string
   /\ keyCount OAUTH_KEY_SIGNATURE
        (params (snd (KQOAuthRequest_requestParameters r))) = 2)
  /\ (last (params r1) ([], [])
      = (OAUTH_KEY_SIGNATURE, fst (oauthSignature (exampleRequest [])))
     /\ keyCount OAUTH_KEY_SIGNATURE (params (snd (requestBaseString r1))) = 1
     /\ keyCount OAUTH_KEY_SIGNATURE
          (params (snd (KQOAuthRequest_requestParameters r1))) = 2).
Proof.
  vm_compute. repeat split.
Qed.

Lemma oauth_signature_appended_last_witness :
  keyCount OAUTH_KEY_SIGNATURE (params (exampleRequest [])) = 0
  /\ keyCount OAUTH_KEY_SIGNATURE
       (additionalParams (d_ptr (self (exampleRequest [])))) = 0
  /\ keyCount OAUTH_KEY_SIGNATURE
       (params (snd (KQOAuthRequest_requestParameters (exampleRequest []))))
     = 1.
Proof.
  split; [reflexivity|]. split; [reflexivity|].
  destruct (oauth_signature_appended_last (exampleRequest []) eq_refl eq_refl)
    as [_ [_ [_ H]]].
  exact H.
Defined.

Lemma second_call_duplicates_witness :
  requestType (self (exampleRequest [])) = TemporaryCredentials
  /\ params (exampleRequest []) = []
  /\ keyCount OAUTH_KEY_NONCE
       (params
          (snd (KQOAuthRequest_requestParameters
                  (snd (KQOAuthRequest_requestParameters
                          (exampleRequest []))))))
     = 2.
Proof.
  split; [reflexivity|]. split; [reflexivity|].
  destruct (second_call_duplicates (exampleRequest []) eq_refl eq_refl)
    as [_ [_ [_ [_ [_ [_ [_ [_ H]]]]]]]].
  apply H.
  - apply in_or_app with (l := removelast protocolKeys). right. now left.
  - intros [].
Defined.

(** The second call on the request of section 8, in full. *)
Example second_call_returns :
  fst (KQOAuthRequest_requestParameters
         (snd (KQOAuthRequest_requestParameters (exampleRequest []))))
  = [ "oauth_callback=https%3A%2F%2Fexample.com%2Fcb"%string;
      "oauth_callback=https%3A%2F%2Fexample.com%2Fcb"%string;
      "oauth_consumer_key=ck"%string; "oauth_consumer_key=ck"%string;
      "oauth_nonce=abc123"%string; "oauth_nonce=abc123"%string;
      "oauth_signature=hmac(cs&,POST&https%3A%2F%2Fexample.com%2Frequest_token&oauth_callback%3Dhttps%253A%252F%252Fexample.com%252Fcb%26oauth_consumer_key%3Dck%26oauth_nonce%3Dabc123%26oauth_signature_method%3DHMAC_SHA1%26oauth_timestamp%3D1300000000%26oauth_version%3D1.0)"%string;
      "oauth_signature_method=HMAC_SHA1"%string;
      "oauth_signature_method=HMAC_SHA1"%string;
      "oauth_timestamp=1300000000"%string;
      "oauth_timestamp=1300000000"%string;
      "oauth_version=1.0"%string; "oauth_version=1.0"%string;
      "oauth_signature=hmac(cs&,POST&https%3A%2F%2Fexample.com%2Frequest_token&oauth_callback%3Dhttps%253A%252F%252Fexample.com%252Fcb%26oauth_callback%3Dhttps%253A%252F%252Fexample.com%252Fcb%26oauth_consumer_key%3Dck%26oauth_consumer_key%3Dck%26oauth_nonce%3Dabc123%26oauth_nonce%3Dabc123%26oauth_signature%3Dhmac%28cs%26%2CPOST%26https%253A%252F%252Fexample.com%252Frequest_token%26oauth_callback%253Dhttps%25253A%25252F%25252Fexample.com%25252Fcb%2526oauth_consumer_key%253Dck%2526oauth_nonce%253Dabc123%2526oauth_signature_method%253DHMAC_SHA1%2526oauth_timestamp%253D1300000000%2526oauth_version%253D1.0%29%26oauth_signature_method%3DHMAC_SHA1%26oauth_signature_method%3DHMAC_SHA1%26oauth_timestamp%3D1300000000%26oauth_timestamp%3D1300000000%26oauth_version%3D1.0%26oauth_version%3D1.0)"%string ].
Proof. vm_compute. reflexivity. Qed.


(** * Further properties of the code *)

(** ** Bytes *)

Lemma countByte_append (c : ascii) (a b : QByteArray) :
  countByte c (a +++ b) = countByte c a + countByte c b.
Proof.
  induction a as [|x a IH]; simpl; [reflexivity|]. rewrite IH. lia.
Qed.

Lemma allBytes_append (p : ascii -> bool) (a b : QByteArray) :
  allBytes p (a +++ b) = allBytes p a && allBytes p b.
Proof.
  induction a as [|x a IH]; simpl; [reflexivity|].
  rewrite IH. now rewrite andb_assoc.
Qed.

Lemma allBytes_countByte (p : ascii -> bool) (c : ascii) (s : QByteArray) :
  p c = false -> allBytes p s = true -> countByte c s = 0.
Proof.
  intros Hc. induction s as [|x s IH]; simpl; [reflexivity|].
  intros H. apply andb_prop in H. destruct H as [Hx Hs].
  rewrite (IH Hs). destruct (Ascii.eqb x c) eqn:E; [|reflexivity].
  apply Ascii.eqb_eq in E. subst. congruence.
Qed.

Lemma percentEncodeByte_encodedByte (c : ascii) :
  allBytes encodedByte (percentEncodeByte c) = true.
Proof.
  destruct c as [[] [] [] [] [] [] [] []]; vm_compute; reflexivity.
Qed.

Lemma q_toPercentEncoding_encodedByte (ba : QByteArray) :
  allBytes encodedByte (q_toPercentEncoding ba) = true.
Proof.
  induction ba as [|c ba IH]; [reflexivity|].
  cbn [q_toPercentEncoding]. destruct (isUnreserved c) eqn:E.
  - cbn [allBytes]. unfold encodedByte at 1. now rewrite E, IH.
  - now rewrite allBytes_append, percentEncodeByte_encodedByte, IH.
Qed.

Lemma q_toPercentEncoding_append (a b : QByteArray) :
  q_toPercentEncoding (a +++ b)
  = q_toPercentEncoding a +++ q_toPercentEncoding b.
Proof.
  induction a as [|c a IH]; [reflexivity|].
  cbn [String.append q_toPercentEncoding]. rewrite IH.
  destruct (isUnreserved c); [reflexivity|].
  now rewrite append_assoc.
Qed.

Lemma allBytes_concat (p : ascii -> bool) (sep : string) (l : list string) :
  allBytes p sep = true ->
  Forall (fun s => allBytes p s = true) l ->
  allBytes p (String.concat sep l) = true.
Proof.
  intros Hsep. induction 1 as [|x l Hx Hl IH]; [reflexivity|].
  destruct l as [|y l]; [exact Hx|].
  change (String.concat sep (x :: y :: l))
    with (x +++ sep +++ String.concat sep (y :: l)).
  now rewrite !allBytes_append, Hx, Hsep, IH.
Qed.

Lemma QString_number_nonempty (n : N) :
  QString_isEmpty (QString_number n) = false.
Proof.
  unfold QString_number.
  assert (H : N.to_uint n <> Decimal.Nil).
  { destruct n as [|p]; [discriminate|]. apply DecimalPos.Unsigned.to_uint_nonnil. }
  destruct (N.to_uint n); try contradiction; reflexivity.
Qed.

Lemma qSort_permutation_invariant (l1 l2 : list (QString * QString)) :
  Permutation l1 l2 ->
  qSort normalizedParameterSort l1 = qSort normalizedParameterSort l2.
Proof.
  intros H. symmetry.
  apply (qSort_unique normalizedParameterSort
           normalizedParameterSort_irrefl normalizedParameterSort_trans
           normalizedParameterSort_total).
  - rewrite qSort_perm. now apply Permutation_sym.
  - apply qSort_sorted.
    + exact normalizedParameterSort_irrefl.
    + exact normalizedParameterSort_trans.
    + exact normalizedParameterSort_total.
Qed.

(** Evaluate the setters and projections of the records, innermost first. *)
Ltac members :=
  cbv [set_oauthRequestEndpoint set_oauthCallbackUrl set_oauthHttpMethod
       set_oauthConsumerKey set_oauthConsumerSecretKey
       set_oauthSignatureMethod set_oauthVersion set_oauthTimestamp_
       set_oauthNonce_ set_additionalParams set_requestParameters
       self requestType d_ptr clockReads qWarnings fst snd
       oauthRequestEndpoint oauthCallbackUrl oauthHttpMethod oauthConsumerKey
       oauthConsumerSecretKey oauthTokenSecret oauthSignatureMethod
       oauthVersion oauthTimestamp_ oauthNonce_ additionalParams
       requestParameters] in *.

Section Further.

Context {qt : Platform}.

Lemma timestampValue_nonempty (d : KQOAuthRequestPrivate) (k : nat) :
  QString_isEmpty (timestampValue d k) = false.
Proof.
  unfold timestampValue.
  destruct (QString_isEmpty (oauthTimestamp_ d)) eqn:E;
    [apply QString_number_nonempty | exact E].
Qed.

(** X1: [oauthTimestamp] never returns an empty string.  A timestamp that
    is set is returned as it is and the clock is not read; one that is not
    set costs one clock reading, and the value read is not stored: the object
    is the same afterwards, so the next call reads the clock again. *)
Theorem oauthTimestamp_never_empty (r : Run) :
  QString_isEmpty (fst (oauthTimestamp r)) = false
  /\ self (snd (oauthTimestamp r)) = self r
  /\ (QString_isEmpty (oauthTimestamp_ (d_ptr (self r))) = false ->
      fst (oauthTimestamp r) = oauthTimestamp_ (d_ptr (self r))
      /\ clockReads (snd (oauthTimestamp r)) = clockReads r)
  /\ (QString_isEmpty (oauthTimestamp_ (d_ptr (self r))) = true ->
      fst (oauthTimestamp r) = QString_number (clock (clockReads r))
      /\ clockReads (snd (oauthTimestamp r)) = S (clockReads r)
      /\ fst (oauthTimestamp (snd (oauthTimestamp r)))
         = QString_number (clock (S (clockReads r)))).
Proof.
  rewrite oauthTimestamp_run. cbn [fst snd self clockReads].
  split; [apply timestampValue_nonempty|]. split; [reflexivity|].
  unfold timestampValue, timestampReads. split; intros E; rewrite E.
  - split; reflexivity.
  - split; [reflexivity|]. split; [reflexivity|].
    rewrite oauthTimestamp_run. cbn [fst self clockReads d_ptr].
    unfold timestampValue. rewrite E. reflexivity.
Qed.

(** X2: on a [TemporaryCredentials] object whose timestamp and nonce are
    both unset, [prepareRequest] reads the clock twice: [oauth_timestamp] is
    the first reading, and [oauth_nonce] is the MD5 of the second reading,
    not of the timestamp that was appended. *)
Theorem prepareRequest_unset_timestamp_and_nonce (r : Run) :
  requestType (self r) = TemporaryCredentials ->
  QString_isEmpty (oauthTimestamp_ (d_ptr (self r))) = true ->
  QString_isEmpty (oauthNonce_ (d_ptr (self r))) = true ->
  let r' := snd (prepareRequest r) in
  In (OAUTH_KEY_TIMESTAMP, QString_number (clock (clockReads r))) (params r')
  /\ In (OAUTH_KEY_NONCE,
         QString_fromAscii
           (md5Hex (toAscii (QString_number (clock (S (clockReads r)))))))
        (params r')
  /\ clockReads r' = S (S (clockReads r)).
Proof.
  intros Ht Hts Hn r'. subst r'.
  rewrite prepareRequest_run, Ht. cbn [Z.eqb TemporaryCredentials snd].
  assert (P : params
                (withParameters
                   (params r
                    ++ preparedParameters (d_ptr (self r)) (clockReads r))
                   (nonceReads (d_ptr (self r))
                    + (timestampReads (d_ptr (self r)) + clockReads r)) r)
              = params r
                ++ preparedParameters (d_ptr (self r)) (clockReads r))
    by (destruct r as [[t d] k w]; destruct d; reflexivity).
  rewrite P. unfold preparedParameters, nonceValue, nonceReads,
    timestampValue, timestampReads.
  rewrite Hts, Hn. cbn [Nat.add].
  split; [|split].
  - apply in_or_app. right. apply in_or_app. left.
    do 4 right. left. reflexivity.
  - apply in_or_app. right. apply in_or_app. left.
    do 5 right. left. reflexivity.
  - destruct r as [[t d] k w]; reflexivity.
Qed.

Lemma initRequest_run (rtype : RequestType) (requestEndpoint : QUrl)
  (r : Run) :
  QUrl_isValid requestEndpoint = true ->
  initRequest rtype requestEndpoint r
  = (tt,
     mkRun (initialised rtype requestEndpoint r)
       (timestampReads (d_ptr (self r)) + clockReads r)
       (if ((rtype <? 0) || (rtype >=? AccessToken))%Z
        then qWarnings r
             ++ ["Invalid request type. Ignoring. This request might not work."%string]
        else qWarnings r)).
Proof.
  intros H. unfold initRequest. rewrite H. cbn [negb].
  unfold bind, set_requestType, modify_d, qWarning, ret, initialised.
  destruct r as [[t d] k w]; destruct d.
  destruct ((rtype <? 0) || (rtype >=? AccessToken))%Z; fields;
    rewrite oauthTimestamp_run; fields;
    rewrite oauthNonce_run; fields;
    unfold nonceReads, timestampReads, timestampValue; members;
    destruct (QString_isEmpty oauthTimestamp_0) eqn:E;
    rewrite ?QString_number_nonempty, ?E;
    destruct (QString_isEmpty oauthNonce_0); reflexivity.
Qed.

(** X3: after [initRequest] with a valid endpoint the timestamp is stored
    and not empty; a nonce that was set is kept, one that was not set is the
    MD5 of the timestamp now stored; at most one clock reading is taken; and
    from then on [oauthTimestamp] and [oauthNonce] take none. *)
Theorem initRequest_caches_timestamp_and_nonce (rtype : RequestType)
  (requestEndpoint : QUrl) (r : Run) :
  QUrl_isValid requestEndpoint = true ->
  let d := d_ptr (self r) in
  let r' := snd (initRequest rtype requestEndpoint r) in
  let d' := d_ptr (self r') in
  QString_isEmpty (oauthTimestamp_ d') = false
  /\ oauthNonce_ d'
     = (if QString_isEmpty (oauthNonce_ d)
        then QString_fromAscii (md5Hex (toAscii (oauthTimestamp_ d')))
        else oauthNonce_ d)
  /\ clockReads r'
     = (if QString_isEmpty (oauthTimestamp_ d) then 1 else 0) + clockReads r
  /\ oauthTimestamp r' = (oauthTimestamp_ d', r')
  /\ clockReads (snd (oauthNonce r')) = clockReads r'.
Proof.
  intros H d r' d'. subst d r' d'.
  rewrite (initRequest_run rtype requestEndpoint r H). cbn [snd self d_ptr].
  rewrite oauthTimestamp_run, oauthNonce_run.
  unfold initialised, nonceReads, nonceValue, timestampReads, timestampValue.
  destruct r as [[t d] k w]; destruct d. members.
  destruct (QString_isEmpty oauthTimestamp_0) eqn:E;
    rewrite ?QString_number_nonempty, ?E;
    destruct (QString_isEmpty oauthNonce_0) eqn:E0;
    rewrite ?E0; cbn [Nat.add];
    repeat match goal with
      | |- context [if ?b then _ else _] => destruct b
      end;
    (split; [reflexivity|]); (split; [reflexivity|]);
    (split; [reflexivity|]); split; reflexivity.
Qed.

Lemma initialised_shape (rtype : RequestType) (requestEndpoint : QUrl)
  (r : Run) :
  exists T : QString,
    QString_isEmpty T = false
    /\ initialised rtype requestEndpoint r
       = mkRequest rtype
           (set_oauthNonce_
              (if QString_isEmpty (oauthNonce_ (d_ptr (self r)))
               then QString_fromAscii (md5Hex (toAscii T))
               else oauthNonce_ (d_ptr (self r)))
              (set_oauthTimestamp_ T
                 (set_oauthRequestEndpoint requestEndpoint
                    (d_ptr (self r))))).
Proof.
  exists (timestampValue
            (set_oauthRequestEndpoint requestEndpoint (d_ptr (self r)))
            (clockReads r)).
  pose proof (timestampValue_nonempty
                (set_oauthRequestEndpoint requestEndpoint (d_ptr (self r)))
                (clockReads r)) as E.
  split; [exact E|].
  unfold initialised. cbv zeta.
  remember (timestampValue
              (set_oauthRequestEndpoint requestEndpoint (d_ptr (self r)))
              (clockReads r)) as T eqn:HT.
  clear HT. unfold nonceValue, timestampValue.
  destruct r as [[t d] k w]; destruct d. members. rewrite E. reflexivity.
Qed.

(** X4: [initRequest] with a valid endpoint is idempotent on the object:
    repeating the call with the same arguments leaves every member as the
    first call set it and reads no clock. *)
Theorem initRequest_idempotent (rtype : RequestType) (requestEndpoint : QUrl)
  (r : Run) :
  QUrl_isValid requestEndpoint = true ->
  let r1 := snd (initRequest rtype requestEndpoint r) in
  let r2 := snd (initRequest rtype requestEndpoint r1) in
  self r2 = self r1 /\ clockReads r2 = clockReads r1.
Proof.
  intros H r1 r2. subst r2 r1.
  rewrite (initRequest_run rtype requestEndpoint r H). cbn [snd].
  rewrite (initRequest_run rtype requestEndpoint _ H).
  cbn [snd self clockReads d_ptr].
  destruct (initialised_shape rtype requestEndpoint r) as [T [E S]].
  rewrite S. clear S.
  unfold initialised, nonceValue, timestampValue, timestampReads.
  destruct r as [[t d] k w]; destruct d. members. rewrite E.
  cbn [Nat.add]. split; [|reflexivity].
  destruct (QString_isEmpty oauthNonce_0) eqn:E0.
  - destruct (QString_isEmpty (QString_fromAscii (md5Hex (toAscii T))));
      rewrite ?E; reflexivity.
  - rewrite E0. reflexivity.
Qed.

Lemma bind_eq {A B : Type} (c : M A) (k : A -> M B) (r : Run) :
  bind c k r = k (fst (c r)) (snd (c r)).
Proof. unfold bind. destruct (c r); reflexivity. Qed.

Lemma runSetter_keeps (c : SetterCall) (r : Run) :
  let r' := snd (runSetter c r) in
  let d := d_ptr (self r) in
  let d' := d_ptr (self r') in
  requestType (self r') = requestType (self r)
  /\ oauthRequestEndpoint d' = oauthRequestEndpoint d
  /\ oauthTimestamp_ d' = oauthTimestamp_ d
  /\ oauthNonce_ d' = oauthNonce_ d
  /\ oauthVersion d' = oauthVersion d
  /\ requestParameters d' = requestParameters d
  /\ clockReads r' = clockReads r.
Proof.
  destruct r as [[t d] k w]; destruct d.
  destruct c as [ck|cs|cb|[| | |n]|[| |n]|ap]; cbv zeta;
    repeat split; reflexivity.
Qed.

(** X5: the setters never touch the request type, the endpoint, the stored
    timestamp and nonce, the version, the stored parameter list or the clock,
    in whatever number and order they are called.  So an object that has
    only been configured through setters, without [initRequest], does not
    validate: its timestamp is still unset. *)
Theorem setters_alone_never_validate (calls : list SetterCall) :
  (forall r : Run,
      let r' := snd (runSetters calls r) in
      requestType (self r') = requestType (self r)
      /\ oauthRequestEndpoint (d_ptr (self r'))
         = oauthRequestEndpoint (d_ptr (self r))
      /\ oauthTimestamp_ (d_ptr (self r')) = oauthTimestamp_ (d_ptr (self r))
      /\ oauthNonce_ (d_ptr (self r')) = oauthNonce_ (d_ptr (self r))
      /\ oauthVersion (d_ptr (self r')) = oauthVersion (d_ptr (self r))
      /\ params r' = params r
      /\ clockReads r' = clockReads r)
  /\ (forall t : RequestType,
        validateRequest
          (self (snd (runSetters calls (KQOAuthRequest_new t)))) = false).
Proof.
  assert (K : forall r : Run,
             let r' := snd (runSetters calls r) in
             requestType (self r') = requestType (self r)
             /\ oauthRequestEndpoint (d_ptr (self r'))
                = oauthRequestEndpoint (d_ptr (self r))
             /\ oauthTimestamp_ (d_ptr (self r'))
                = oauthTimestamp_ (d_ptr (self r))
             /\ oauthNonce_ (d_ptr (self r')) = oauthNonce_ (d_ptr (self r))
             /\ oauthVersion (d_ptr (self r')) = oauthVersion (d_ptr (self r))
             /\ params r' = params r
             /\ clockReads r' = clockReads r).
  { induction calls as [|c calls IH]; intros r; cbv zeta.
    - repeat split; reflexivity.
    - cbn [runSetters]. rewrite bind_eq.
      pose proof (runSetter_keeps c r) as Hc. cbv zeta in Hc.
      specialize (IH (snd (runSetter c r))). cbv zeta in IH.
      unfold params in *.
      destruct Hc as [H1 [H2 [H3 [H4 [H5 [H6 H7]]]]]].
      destruct IH as [I1 [I2 [I3 [I4 [I5 [I6 I7]]]]]].
      repeat split; congruence. }
  split; [exact K|].
  intros t. destruct (K (KQOAuthRequest_new t)) as [_ [_ [H _]]].
  unfold validateRequest. rewrite H.
  change (oauthTimestamp_ (d_ptr (self (KQOAuthRequest_new t)))) with (@nil QChar).
  cbn [QString_isEmpty]. rewrite !orb_true_r.
  destruct (requestType _ =? TemporaryCredentials)%Z; [reflexivity|].
  destruct (requestType _ =? ResourceOwnerAuth)%Z; [reflexivity|].
  destruct (requestType _ =? AccessToken)%Z; reflexivity.
Qed.

(** X6: a new object set up with [initRequest] for [TemporaryCredentials]
    with a valid, non-empty endpoint, a non-empty consumer key and a
    non-empty callback URL validates, provided the MD5 text of the timestamp
    is not empty. *)
Theorem setUpTemporaryCredentials_validates
  (requestEndpoint callbackUrl : QUrl) (consumerKey : QString)
  (t : RequestType) :
  QUrl_isValid requestEndpoint = true ->
  QUrl_isEmpty requestEndpoint = false ->
  QUrl_isEmpty callbackUrl = false ->
  QString_isEmpty consumerKey = false ->
  QString_isEmpty
    (QString_fromAscii (md5Hex (toAscii (QString_number (clock 0))))) = false ->
  validateRequest
    (self (snd (setUpTemporaryCredentials requestEndpoint callbackUrl
                  consumerKey (KQOAuthRequest_new t)))) = true.
Proof.
  intros Hv He Hc Hk Hn.
  unfold setUpTemporaryCredentials, bind.
  rewrite (initRequest_run _ _ _ Hv).
  unfold validateRequest, setConsumerKey, setCallbackUrl, modify_d,
    initialised, nonceValue, timestampValue.
  cbn [snd self d_ptr requestType clockReads].
  change (d_ptr (self (KQOAuthRequest_new t)))
    with (mkPrivate QUrl_null QUrl_null (qs "POST") [] [] [] (qs "HMAC_SHA1")
            (qs "1.0") [] [] [] []).
  change (clockReads (KQOAuthRequest_new t)) with 0.
  members. cbn [QString_isEmpty Nat.add timestampReads].
  unfold timestampReads. members. cbn [QString_isEmpty Nat.add].
  rewrite !QString_number_nonempty, He, Hc, Hk, Hn. reflexivity.
Qed.

(** X7: [requestParameters()] prints its warning that the request is not
    valid exactly when [validateRequest] returns true; on a request that
    fails validation the log is left as it was. *)
Theorem requestParameters_warns_exactly_when_valid (r : Run) :
  (validateRequest (self r) = true <->
     qWarnings (snd (KQOAuthRequest_requestParameters r))
     = qWarnings r
       ++ ["Request is not valid! I will still sign it, but it will probably not work."%string])
  /\ (validateRequest (self r) = false <->
        qWarnings (snd (KQOAuthRequest_requestParameters r)) = qWarnings r).
Proof.
  rewrite KQOAuthRequest_requestParameters_run. cbn [snd qWarnings].
  assert (N : forall (w : list string) (m : string), w ++ [m] <> w).
  { intros w m E. apply (f_equal (@List.length string)) in E.
    rewrite length_app in E. simpl in E. lia. }
  destruct (validateRequest (self r)); split; split; intros H;
    try reflexivity; try discriminate.
  - exfalso. exact (N _ _ H).
  - exfalso. symmetry in H. exact (N _ _ H).
Qed.


(** X9: for a request type other than [TemporaryCredentials] on an object
    with an empty stored list, [requestParameters()] returns a single entry,
    the [oauth_signature], computed over a base string that holds the
    method, the endpoint and an empty parameter block: no consumer key,
    timestamp, nonce or additional parameter is sent or signed, and the clock
    is not read. *)
Theorem requestParameters_other_request_types (r : Run) :
  requestType (self r) <> TemporaryCredentials ->
  params r = [] ->
  let d := d_ptr (self r) in
  let out := KQOAuthRequest_requestParameters r in
  fst out
  = [ keyValueBytes
        (OAUTH_KEY_SIGNATURE,
         hmac_sta1
           (toUtf8 (oauthHttpMethod d) +++ "&"
            +++ QUrl_toPercentEncoding
                  (QUrl_toString true (oauthRequestEndpoint d))
            +++ "&")
           (signingKey d)) ]
  /\ clockReads (snd out) = clockReads r.
Proof.
  intros Ht Hp d out. subst d out.
  rewrite KQOAuthRequest_requestParameters_run. cbn [fst snd clockReads].
  unfold signatureOf, baseStringOf, signedParameters, readsAfter,
    baseStringHead.
  apply Z.eqb_neq in Ht. rewrite Ht, Hp.
  split; [|reflexivity].
  cbn [app map]. unfold encodedParamaterList. cbn [fold_left fst].
  now rewrite append_empty_r.
Qed.

Lemma encodedParamaterList_encodedByte (l : list (QString * QString)) :
  allBytes encodedByte (encodedParamaterList l) = true.
Proof.
  rewrite encodedParamaterList_concat.
  apply allBytes_concat; [reflexivity|].
  apply Forall_map, Forall_forall. intros p _.
  unfold QUrl_toPercentEncoding.
  rewrite !allBytes_append, !q_toPercentEncoding_encodedByte. reflexivity.
Qed.

(** X10: the encoded parameter list consists of unreserved characters and
    percent signs only.  So the only raw [&] of a base string are the two
    separators after the method and after the endpoint, apart from any the
    method token itself holds, and the only raw [=] are those of the method
    token. *)
Theorem requestBaseString_raw_separators (r : Run) :
  let base := fst (requestBaseString r) in
  let method := toUtf8 (oauthHttpMethod (d_ptr (self r))) in
  (forall l, allBytes encodedByte (encodedParamaterList l) = true)
  /\ countByte "&" base = countByte "&" method + 2
  /\ countByte "=" base = countByte "=" method.
Proof.
  cbv zeta. split; [exact encodedParamaterList_encodedByte|].
  rewrite requestBaseString_run. cbn [fst].
  unfold baseStringOf, baseStringHead, QUrl_toPercentEncoding.
  rewrite !countByte_append.
  rewrite (allBytes_countByte encodedByte "&" (q_toPercentEncoding _) eq_refl
             (q_toPercentEncoding_encodedByte _)).
  rewrite (allBytes_countByte encodedByte "=" (q_toPercentEncoding _) eq_refl
             (q_toPercentEncoding_encodedByte _)).
  rewrite (allBytes_countByte encodedByte "&" (encodedParamaterList _) eq_refl
             (encodedParamaterList_encodedByte _)).
  rewrite (allBytes_countByte encodedByte "=" (encodedParamaterList _) eq_refl
             (encodedParamaterList_encodedByte _)).
  cbn [countByte Ascii.eqb Bool.eqb]. split; lia.
Qed.

(** X11: the separators inside the parameter block are the same tokens
    that encode a [&] and a [=] occurring in a key or a value, so the block
    does not tell them apart: one parameter whose value reads [v&k'=v']
    encodes to the same bytes as the two parameters [(k, v)] and [(k', v')],
    whenever [toUtf8] converts that value piece by piece. *)
Theorem encodedParamaterList_collision (k v k' v' : QString) :
  toUtf8 (v ++ qs "&" ++ k' ++ qs "=" ++ v')
  = toUtf8 v +++ "&" +++ toUtf8 k' +++ "=" +++ toUtf8 v' ->
  encodedParamaterList [(k, v ++ qs "&" ++ k' ++ qs "=" ++ v')]
  = encodedParamaterList [(k, v); (k', v')].
Proof.
  intros H. rewrite !encodedParamaterList_concat.
  cbn [map String.concat fst snd]. unfold QUrl_toPercentEncoding.
  rewrite H, !q_toPercentEncoding_append, !append_assoc. reflexivity.
Qed.

(** X12: for [TemporaryCredentials] the base string, and with it the
    signature, does not depend on the order in which the stored list holds
    its entries: rearranging the list gives the same bytes. *)
Theorem requestBaseString_order_independent (r : Run)
  (l : list (QString * QString)) :
  requestType (self r) = TemporaryCredentials ->
  Permutation l (params r) ->
  let r' := withParameters l (clockReads r) r in
  fst (requestBaseString r') = fst (requestBaseString r)
  /\ fst (oauthSignature r') = fst (oauthSignature r)
  /\ params (snd (requestBaseString r')) = params (snd (requestBaseString r)).
Proof.
  intros Ht HP r'. subst r'.
  rewrite !oauthSignature_run, !requestBaseString_params,
    !requestBaseString_run.
  cbn [fst].
  assert (S : signedParameters (withParameters l (clockReads r) r)
              = signedParameters r).
  { unfold signedParameters.
    destruct r as [[t d] k w]; destruct d. unfold withParameters, params in *.
    members. subst t. cbn [Z.eqb TemporaryCredentials].
    apply qSort_permutation_invariant.
    apply Permutation_app; [exact HP | reflexivity]. }
  unfold signatureOf, baseStringOf. rewrite S.
  assert (D : baseStringHead (d_ptr (self (withParameters l (clockReads r) r)))
              = baseStringHead (d_ptr (self r))
              /\ signingKey (d_ptr (self (withParameters l (clockReads r) r)))
                 = signingKey (d_ptr (self r)))
    by (destruct r as [[t d] k w]; destruct d; split; reflexivity).
  destruct D as [D1 D2]. rewrite D1, D2. repeat split.
Qed.

Lemma call_keeps (r : Run) :
  let r' := snd (KQOAuthRequest_requestParameters r) in
  requestType (self r') = requestType (self r)
  /\ additionalParams (d_ptr (self r')) = additionalParams (d_ptr (self r))
  /\ params r'
     = signedParameters r ++ [(OAUTH_KEY_SIGNATURE, signatureOf r)].
Proof.
  cbv zeta. unfold params. rewrite call_self.
  destruct r as [[t d] k w]; destruct d; repeat split.
Qed.

(** X13: every [requestParameters()] on a [TemporaryCredentials] object
    makes the stored list longer by the six protocol parameters, the
    additional parameters and one [oauth_signature]; nothing is ever removed.
    After [n] calls each key has gained [n] times its count in one round, and
    the list has gained [n] times seven plus the number of additional
    parameters. *)
Theorem stored_list_grows_with_every_call (n : nat) (r : Run) :
  requestType (self r) = TemporaryCredentials ->
  let additional := additionalParams (d_ptr (self r)) in
  (forall k : QString,
      keyCount k (params (callTimes n r))
      = keyCount k (params r)
        + n * (count_occ QString_eq_dec protocolKeys k
               + count_occ QString_eq_dec (QMap_keys additional) k
               + (if QString_eq_dec OAUTH_KEY_SIGNATURE k then 1 else 0)))
  /\ List.length (params (callTimes n r))
     = List.length (params r) + n * (7 + List.length additional).
Proof.
  cbv zeta. revert r. induction n as [|n IH]; intros r Ht.
  - cbn [callTimes]. split; [intros k|]; lia.
  - cbn [callTimes].
    destruct (call_keeps r) as [Kt [Ka Kp]].
    rewrite Ht in Kt. destruct (IH _ Kt) as [IHk IHl].
    rewrite Ka in IHk, IHl. rewrite Kp in IHk, IHl.
    rewrite (signedParameters_TemporaryCredentials r Ht) in IHk, IHl.
    split.
    + intros k. rewrite IHk, keyCount_app, keyCount_qSort, keyCount_app,
        keyCount_preparedParameters, keyCount_single.
      destruct (QString_eq_dec OAUTH_KEY_SIGNATURE k); lia.
    + rewrite IHl, length_app.
      rewrite (Permutation_length (qSort_perm normalizedParameterSort _)).
      rewrite length_app. unfold preparedParameters.
      rewrite length_app. cbn [List.length]. lia.
Qed.

(** X14: the query of the endpoint URL is left out of the base string
    altogether: endpoints that differ only in their query give the same base
    string and the same signature. *)
Theorem requestBaseString_ignores_endpoint_query (q : option QString)
  (r : Run) :
  let r' := withEndpoint (withQuery q (oauthRequestEndpoint (d_ptr (self r)))) r in
  fst (requestBaseString r') = fst (requestBaseString r)
  /\ fst (oauthSignature r') = fst (oauthSignature r).
Proof.
  cbv zeta. rewrite !oauthSignature_run, !requestBaseString_run. cbn [fst].
  unfold signatureOf, baseStringOf, baseStringHead, signedParameters,
    withEndpoint, withQuery, params, preparedParameters, signingKey,
    QUrl_toString, nonceValue, timestampValue, timestampReads.
  destruct r as [[t d] k w]; destruct d. members.
  cbn [url_hierPart url_query url_fragment].
  destruct q; destruct (url_query oauthRequestEndpoint0); split; reflexivity.
Qed.

(** X15: after [requestParameters()] on a [TemporaryCredentials] object
    the stored list is in normalised order up to its last entry, which is the
    new [oauth_signature]: the entries before it are an ordered rearrangement
    of the list as it was and the round [prepareRequest] appended, and the
    returned byte arrays follow the same order. *)
Theorem requestParameters_sorted_then_signature (r : Run) :
  requestType (self r) = TemporaryCredentials ->
  let out := KQOAuthRequest_requestParameters r in
  let sorted := params (snd (requestBaseString r)) in
  let signature := fst (oauthSignature r) in
  params (snd out) = sorted ++ [(OAUTH_KEY_SIGNATURE, signature)]
  /\ StronglySorted (notAfter normalizedParameterSort) sorted
  /\ Permutation sorted
       (params r ++ preparedParameters (d_ptr (self r)) (clockReads r))
  /\ fst out
     = map keyValueBytes sorted
       ++ [keyValueBytes (OAUTH_KEY_SIGNATURE, signature)].
Proof.
  intros Ht out sorted signature. subst out sorted signature.
  destruct (call_keeps r) as [_ [_ Kp]].
  rewrite Kp, requestBaseString_params, oauthSignature_run,
    KQOAuthRequest_requestParameters_run.
  cbn [fst]. rewrite (signedParameters_TemporaryCredentials r Ht).
  split; [reflexivity|]. split.
  { apply qSort_sorted.
    - exact normalizedParameterSort_irrefl.
    - exact normalizedParameterSort_trans.
    - exact normalizedParameterSort_total. }
  split; [apply qSort_perm|].
  now rewrite map_app.
Qed.

(** X16: [requestParameters()] changes the stored parameter list and
    nothing else of the object.  The timestamp and the nonce it signed with
    are not stored, so an unset timestamp is still unset afterwards, and
    [validateRequest] answers after the call as it did before. *)
Theorem requestParameters_changes_only_the_list (r : Run) :
  let r' := snd (KQOAuthRequest_requestParameters r) in
  self r'
  = mkRequest (requestType (self r))
      (set_requestParameters (params r') (d_ptr (self r)))
  /\ oauthTimestamp_ (d_ptr (self r')) = oauthTimestamp_ (d_ptr (self r))
  /\ oauthNonce_ (d_ptr (self r')) = oauthNonce_ (d_ptr (self r))
  /\ validateRequest (self r') = validateRequest (self r).
Proof.
  cbv zeta. unfold params. rewrite call_self.
  destruct r as [[t d] k w]; destruct d. members.
  repeat split.
Qed.

(** X17: once timestamp and nonce are stored, as they are after
    [initRequest], [prepareRequest] appends exactly these two values and does
    not read the clock, however late it is called: every call signs with the
    same timestamp and the same nonce. *)
Theorem prepareRequest_reuses_stored_values (r : Run) :
  requestType (self r) = TemporaryCredentials ->
  QString_isEmpty (oauthTimestamp_ (d_ptr (self r))) = false ->
  QString_isEmpty (oauthNonce_ (d_ptr (self r))) = false ->
  let d := d_ptr (self r) in
  let r' := snd (prepareRequest r) in
  In (OAUTH_KEY_TIMESTAMP, oauthTimestamp_ d) (params r')
  /\ In (OAUTH_KEY_NONCE, oauthNonce_ d) (params r')
  /\ keyCount OAUTH_KEY_TIMESTAMP (params r')
     = keyCount OAUTH_KEY_TIMESTAMP (params r) + 1
       + count_occ QString_eq_dec (QMap_keys (additionalParams d))
           OAUTH_KEY_TIMESTAMP
  /\ clockReads r' = clockReads r
  /\ (forall later : nat,
        params (snd (prepareRequest (withParameters (params r) later r)))
        = params r').
Proof.
  intros Ht Hts Hn d r'. subst d r'.
  rewrite prepareRequest_run, Ht. cbn [Z.eqb TemporaryCredentials snd].
  assert (P : forall k,
             preparedParameters (d_ptr (self r)) k
             = [ (OAUTH_KEY_CALLBACK,
                  QString_fromAscii
                    (QUrl_toPercentEncoding
                       (QUrl_toString false
                          (oauthCallbackUrl (d_ptr (self r))))));
                 (OAUTH_KEY_SIGNATURE_METHOD,
                  oauthSignatureMethod (d_ptr (self r)));
                 (OAUTH_KEY_CONSUMER_KEY, oauthConsumerKey (d_ptr (self r)));
                 (OAUTH_KEY_VERSION, oauthVersion (d_ptr (self r)));
                 (OAUTH_KEY_TIMESTAMP, oauthTimestamp_ (d_ptr (self r)));
                 (OAUTH_KEY_NONCE, oauthNonce_ (d_ptr (self r))) ]
               ++ additionalParams (d_ptr (self r))).
  { intros k. unfold preparedParameters, nonceValue, timestampValue.
    now rewrite Hts, Hn. }
  assert (E : forall l k r0, params (withParameters l k r0) = l)
    by (intros l k [[t0 d0] k0 w0]; destruct d0; reflexivity).
  rewrite E, P.
  split; [|split; [|split; [|split]]].
  - apply in_or_app. right. apply in_or_app. left.
    do 4 right. left. reflexivity.
  - apply in_or_app. right. apply in_or_app. left.
    do 5 right. left. reflexivity.
  - rewrite !keyCount_app. unfold keyCount at 2. unfold QMap_keys.
    unfold keyCount at 2. cbn [map fst].
    change (count_occ QString_eq_dec
              [OAUTH_KEY_CALLBACK; OAUTH_KEY_SIGNATURE_METHOD;
               OAUTH_KEY_CONSUMER_KEY; OAUTH_KEY_VERSION;
               OAUTH_KEY_TIMESTAMP; OAUTH_KEY_NONCE] OAUTH_KEY_TIMESTAMP)
      with 1.
    lia.
  - unfold nonceReads, timestampReads. rewrite Hts, Hn.
    destruct r as [[t d] k w]; reflexivity.
  - intros later. rewrite prepareRequest_run.
    assert (T : requestType (self (withParameters (params r) later r))
                = TemporaryCredentials)
      by (destruct r as [[t d] k w]; exact Ht).
    rewrite T. cbn [Z.eqb TemporaryCredentials snd].
    rewrite !E.
    assert (D : d_ptr (self (withParameters (params r) later r))
                = d_ptr (self r))
      by (destruct r as [[t d] k w]; destruct d; reflexivity).
    rewrite D, !P. reflexivity.
Qed.

(** X18: the consumer secret enters the signing key and nothing else: with
    another consumer secret the base string and every returned entry before
    the [oauth_signature] are the same bytes. *)
Theorem consumer_secret_only_in_the_key (secret : QString) (r : Run) :
  let r' := snd (setConsumerSecretKey secret r) in
  fst (requestBaseString r') = fst (requestBaseString r)
  /\ removelast (fst (KQOAuthRequest_requestParameters r'))
     = removelast (fst (KQOAuthRequest_requestParameters r))
  /\ signingKey (d_ptr (self r'))
     = secret ++ qs "&" ++ oauthTokenSecret (d_ptr (self r)).
Proof.
  cbv zeta. rewrite !KQOAuthRequest_requestParameters_run,
    !requestBaseString_run.
  cbn [fst]. rewrite !map_app. cbn [map]. rewrite !removelast_last.
  unfold baseStringOf, baseStringHead, signedParameters, params,
    preparedParameters, nonceValue, timestampValue, timestampReads,
    signingKey, setConsumerSecretKey, modify_d.
  destruct r as [[t d] k w]; destruct d. cbn [snd]. members.
  repeat split.
Qed.

End Further.

(** * The further properties on concrete requests *)

Lemma oauthTimestamp_never_empty_witness :
  QString_isEmpty
    (oauthTimestamp_ (d_ptr (self (KQOAuthRequest_new TemporaryCredentials))))
  = true
  /\ fst (oauthTimestamp (KQOAuthRequest_new TemporaryCredentials))
     = qs "1300000000"
  /\ fst (oauthTimestamp
            (snd (oauthTimestamp (KQOAuthRequest_new TemporaryCredentials))))
     = qs "1300000001".
Proof.
  split; [reflexivity|].
  destruct (oauthTimestamp_never_empty (KQOAuthRequest_new TemporaryCredentials))
    as [_ [_ [_ H]]].
  destruct (H eq_refl) as [H1 [_ H2]].
  split; [rewrite H1 | rewrite H2]; vm_compute; reflexivity.
Defined.

Lemma prepareRequest_unset_timestamp_and_nonce_witness :
  requestType (self (KQOAuthRequest_new TemporaryCredentials))
  = TemporaryCredentials
  /\ In (OAUTH_KEY_NONCE, qs "md5(1300000001)")
        (params (snd (prepareRequest (KQOAuthRequest_new TemporaryCredentials))))
  /\ clockReads (snd (prepareRequest (KQOAuthRequest_new TemporaryCredentials)))
     = 2.
Proof.
  split; [reflexivity|].
  destruct (prepareRequest_unset_timestamp_and_nonce
              (KQOAuthRequest_new TemporaryCredentials)
              eq_refl eq_refl eq_refl) as [_ [H1 H2]].
  split; [exact H1 | exact H2].
Defined.

Lemma initRequest_caches_timestamp_and_nonce_witness :
  QUrl_isValid (url "https://example.com/request_token") = true
  /\ oauthNonce_
       (d_ptr (self (snd (initRequest TemporaryCredentials
                            (url "https://example.com/request_token")
                            (KQOAuthRequest_new AccessToken)))))
     = qs "md5(1300000000)".
Proof.
  split; [reflexivity|].
  destruct (initRequest_caches_timestamp_and_nonce TemporaryCredentials
              (url "https://example.com/request_token")
              (KQOAuthRequest_new AccessToken) eq_refl) as [_ [H _]].
  rewrite H. vm_compute. reflexivity.
Defined.

Lemma initRequest_idempotent_witness :
  QUrl_isValid (url "https://example.com/request_token") = true
  /\ clockReads
       (snd (initRequest TemporaryCredentials
               (url "https://example.com/request_token")
               (snd (initRequest TemporaryCredentials
                       (url "https://example.com/request_token")
                       (KQOAuthRequest_new AccessToken)))))
     = 1.
Proof.
  split; [reflexivity|].
  destruct (initRequest_idempotent TemporaryCredentials
              (url "https://example.com/request_token")
              (KQOAuthRequest_new AccessToken) eq_refl) as [_ H].
  rewrite H. reflexivity.
Defined.

Lemma setUpTemporaryCredentials_validates_witness :
  QUrl_isEmpty (url "https://example.com/request_token") = false
  /\ QString_isEmpty (qs "md5(1300000000)") = false
  /\ validateRequest
       (self (snd (setUpTemporaryCredentials
                     (url "https://example.com/request_token")
                     (url "https://example.com/cb") (qs "ck")
                     (KQOAuthRequest_new AccessToken))))
     = true.
Proof.
  split; [reflexivity|]. split; [reflexivity|].
  apply (setUpTemporaryCredentials_validates
           (url "https://example.com/request_token")
           (url "https://example.com/cb") (qs "ck") AccessToken);
    reflexivity.
Defined.


Lemma requestParameters_other_request_types_witness :
  requestType (self (KQOAuthRequest_new AccessToken)) <> TemporaryCredentials
  /\ params (KQOAuthRequest_new AccessToken) = []
  /\ fst (KQOAuthRequest_requestParameters (KQOAuthRequest_new AccessToken))
     = ["oauth_signature=hmac(&,POST&&)"%string].
Proof.
  assert (H : requestType (self (KQOAuthRequest_new AccessToken))
              <> TemporaryCredentials) by discriminate.
  split; [exact H|]. split; [reflexivity|].
  destruct (requestParameters_other_request_types
              (KQOAuthRequest_new AccessToken) H eq_refl) as [E _].
  rewrite E. vm_compute. reflexivity.
Defined.

Lemma encodedParamaterList_collision_witness :
  utf8 (qs "b" ++ qs "&" ++ qs "c" ++ qs "=" ++ qs "d") = "b&c=d"%string
  /\ encodedParamaterList [(qs "a", qs "b&c=d")]
     = encodedParamaterList [(qs "a", qs "b"); (qs "c", qs "d")].
Proof.
  split; [reflexivity|].
  exact (encodedParamaterList_collision (qs "a") (qs "b") (qs "c") (qs "d")
           eq_refl).
Defined.

Lemma requestBaseString_order_independent_witness :
  let r :=
    withParameters [(qs "x", qs "1"); (qs "b", qs "2")] 0 (exampleRequest []) in
  requestType (self r) = TemporaryCredentials
  /\ fst (requestBaseString
            (withParameters [(qs "b", qs "2"); (qs "x", qs "1")] 0 r))
     = fst (requestBaseString r).
Proof.
  cbv zeta. split; [reflexivity|].
  destruct (requestBaseString_order_independent
              (withParameters [(qs "x", qs "1"); (qs "b", qs "2")] 0
                 (exampleRequest []))
              [(qs "b", qs "2"); (qs "x", qs "1")] eq_refl
              (perm_swap _ _ _)) as [H _].
  exact H.
Defined.

Lemma stored_list_grows_with_every_call_witness :
  requestType (self (exampleRequest [(qs "scope", qs "a b")]))
  = TemporaryCredentials
  /\ List.length
       (params (callTimes 3 (exampleRequest [(qs "scope", qs "a b")])))
     = 24.
Proof.
  split; [reflexivity|].
  destruct (stored_list_grows_with_every_call 3
              (exampleRequest [(qs "scope", qs "a b")]) eq_refl) as [_ H].
  rewrite H. reflexivity.
Defined.

Lemma requestParameters_sorted_then_signature_witness :
  requestType (self (exampleRequest [])) = TemporaryCredentials
  /\ StronglySorted (notAfter normalizedParameterSort)
       (params (snd (requestBaseString (exampleRequest [])))).
Proof.
  split; [reflexivity|].
  destruct (requestParameters_sorted_then_signature (exampleRequest [])
              eq_refl) as [_ [H _]].
  exact H.
Defined.

Lemma prepareRequest_reuses_stored_values_witness :
  requestType (self (exampleRequest [])) = TemporaryCredentials
  /\ QString_isEmpty (oauthTimestamp_ (d_ptr (self (exampleRequest []))))
     = false
  /\ QString_isEmpty (oauthNonce_ (d_ptr (self (exampleRequest [])))) = false
  /\ In (OAUTH_KEY_NONCE, qs "abc123")
        (params (snd (prepareRequest (exampleRequest []))))
  /\ clockReads (snd (prepareRequest (exampleRequest []))) = 0.
Proof.
  split; [reflexivity|]. split; [reflexivity|]. split; [reflexivity|].
  destruct (prepareRequest_reuses_stored_values (exampleRequest [])
              eq_refl eq_refl eq_refl) as [_ [H1 [_ [H2 _]]]].
  split; [exact H1 | exact H2].
Defined.
